(** * finalysis: the bhav-copy downloader (bse/src/bhav_copy.py, bse/src/yahoo.py)

    A shallow embedding of the download engine, of the date iteration of
    [Source] and of [YahooSource], with the properties of the design
    document proved or refuted.

    Modelling conventions.
    - Python floats are idealised as real numbers ([R]): [math.pow(2, c)]
      is [Rpower 2 c]; rounding and overflow of binary64 are not modelled.
    - Effects (HTTP requests, sleeping, files, printing, logging) are
      threaded through a state-and-exception monad over a [World] that
      records every observable action in a trace.
    - A date is its proleptic Gregorian ordinal ([date.toordinal()]),
      so that adding [timedelta(days=1)] is adding 1. *)

From Stdlib Require Import ZArith List Bool Ascii String Lia Reals Lra.
From stdpp Require Import base strings gmap list pretty sorting.
From Equations Require Import Equations.
Import ListNotations.

Local Open Scope string_scope.
Local Open Scope Z_scope.
Local Open Scope list_scope.

(** ** Exceptions, outcomes and the effect monad *)

Inductive Exn : Type :=
| ConnectionError            (* requests.exceptions.ConnectionError and the like *)
| IOError (errno : Z).       (* open() / write() / time.sleep() failures *)

Definition EINVAL : Z := 22.
Definition EACCES : Z := 13.

(** The result of running a piece of code: a value, a raised exception,
    or exhaustion of the recursion fuel of the model (never reached by
    [download], see [download_total]). *)
Inductive Outcome (A : Type) : Type :=
| Return (a : A)
| Raise (e : Exn)
| OutOfFuel.
Arguments Return {A} a.
Arguments Raise {A} e.
Arguments OutOfFuel {A}.

(** What [requests.get] hands back: the fields the engine reads.
    [iter_content n] is the sequence of blocks of at most [n] bytes the
    body is streamed in; [iter_error] is the exception of the transport
    that cuts the stream short, if any. *)
Record Response : Type := mkResponse {
  ok : bool;
  status_code : Z;
  iter_content : Z -> list string;
  iter_error : option Exn
}.

(** Actions of a run, in the order they happen: input and output, and
    the calls on the backoff object. *)
Inductive Event : Type :=
| EvProgress (i : Z) (dated_file : string)        (* print('Processing file %s:%s') *)
| EvGet (item : string) (r : Exn + Response)      (* downloader(item) and what came back *)
| EvWarn (item : string) (status : Z)             (* log.warn('Error in %s, status: %s') *)
| EvBackoff (interval : R)                        (* backoff() entered: log.info('Backing off for ...') *)
| EvWait (interval : R)                           (* wait() entered, with the delay it computes *)
| EvWaiting (interval : R)                        (* log.info('Waiting without back off ...') *)
| EvSleep (secs : R)                              (* time.sleep(secs) *)
| EvOpen (filename : string)                      (* open(filename, 'wb') *)
| EvWrite (filename : string) (block : string)    (* handle.write(block) *)
| EvGivingUp (n : Z)                              (* log.info('Giving up with %d failures') *)
| EvSummary (n s f : Z).                          (* print('Downloaded %d files, ...') *)

(** The surroundings of the program, fixed during a run. [net n url] is
    what the [n]-th request of the run receives when it asks for [url]:
    the remote side may answer differently every time. [openable] tells
    which paths can be opened for writing, [abspath] is [os.path.abspath]
    in the current directory of the process. *)
Record Env : Type := mkEnv {
  net : nat -> string -> Exn + Response;
  openable : string -> bool;
  abspath : string -> string
}.

Record World : Type := mkWorld {
  env : Env;
  requests : nat;                 (* number of requests sent so far *)
  files : gmap string string;     (* the file system: path to contents *)
  trace : list Event
}.

Definition M (A : Type) : Type := World -> Outcome A * World.

#[global] Instance M_ret : MRet M := fun A (a : A) w => (Return a, w).

#[global] Instance M_bind : MBind M := fun A B (k : A -> M B) (m : M A) w =>
  match m w with
  | (Return a, w') => k a w'
  | (Raise e, w') => (Raise e, w')
  | (OutOfFuel, w') => (OutOfFuel, w')
  end.

Definition raise {A} (e : Exn) : M A := fun w => (Raise e, w).
Definition out_of_fuel {A} : M A := fun w => (OutOfFuel, w).

Definition log_event (e : Event) (w : World) : World :=
  {| env := env w; requests := requests w; files := files w; trace := trace w ++ [e] |}.

Definition emit (e : Event) : M unit := fun w => (Return tt, log_event e w).

(** [time.sleep]: a negative duration is rejected by the operating
    system (EINVAL), anything else passes the time. *)
Definition time_sleep (secs : R) : M unit :=
  if Rlt_dec secs 0 then raise (IOError EINVAL) else emit (EvSleep secs).

(** [functools.partial(requests.get, stream=True)] *)
Definition requests_get (item : string) : M Response :=
  fun w =>
    let r := net (env w) (requests w) item in
    let w' := {| env := env w; requests := S (requests w); files := files w;
                 trace := trace w ++ [EvGet item r] |} in
    match r with
    | inl e => (Raise e, w')
    | inr resp => (Return resp, w')
    end.

(** [open(filename, 'wb')]: truncates the file, or fails. *)
Definition open_wb (filename : string) : M unit :=
  fun w =>
    if openable (env w) filename then
      (Return tt,
       {| env := env w; requests := requests w;
          files := <[filename := ""]> (files w);
          trace := trace w ++ [EvOpen filename] |})
    else (Raise (IOError EACCES), w).

(** [handle.write(block)] *)
Definition handle_write (filename block : string) : M unit :=
  fun w =>
    (Return tt,
     {| env := env w; requests := requests w;
        files := <[filename := String.append (default "" (files w !! filename)) block]> (files w);
        trace := trace w ++ [EvWrite filename block] |}).

(** [os.path.join] with two arguments (posixpath) *)
Definition endswith_slash (s : string) : bool :=
  match String.get (String.length s - 1) s with
  | Some c => Ascii.eqb c "/"%char
  | None => false
  end.

Definition path_join (a b : string) : string :=
  if String.prefix "/" b then b
  else if (String.eqb a "" || endswith_slash a)%bool then (a ++ b)%string
  else (a ++ "/" ++ b)%string.

Definition path_abspath (p : string) : M string := fun w => (Return (abspath (env w) p), w).

(** A world to run examples in: nothing on disk, nothing sent yet,
    every path writable and taken as absolute already. *)
Definition fresh_world (net : nat -> string -> Exn + Response) : World :=
  {| env := {| net := net; openable := fun _ => true; abspath := fun p => p |};
     requests := 0; files := ∅; trace := [] |}.

(** A remote side that cannot be reached. *)
Definition unreachable : nat -> string -> Exn + Response :=
  fun _ _ => inl ConnectionError.

(** ** ExponentialBackoff *)

Module ExponentialBackoff.

Local Open Scope R_scope.

Record t : Type := mk { count : R; start : R; limit : R }.

(** [__init__] *)
Definition init (start limit : R) : t :=
  {| count := 0; start := start; limit := limit |}.

(** [interval] (a property) *)
Definition interval (self : t) : R :=
  Rmin (limit self) (start self * Rpower 2 (count self)).

(** [backoff] *)
Definition backoff (self : t) : M t :=
  emit (EvBackoff (interval self)) ;;
  time_sleep (interval self) ;;
  mret {| count := count self + 1; start := start self; limit := limit self |}.

(** the delay [wait] computes in its first line *)
Definition wait_interval (self : t) : R :=
  Rmax 0.01 (start self * count self).

(** [wait] *)
Definition wait (self : t) : M t :=
  let interval := wait_interval self in
  emit (EvWait interval) ;;
  if Rgt_dec interval 0.01 then
    emit (EvWaiting interval) ;;
    time_sleep interval ;;
    mret {| count := count self * 0.8705; start := start self; limit := limit self |}
  else mret self.

(** The object after [self.count *= 0.8705] and after [self.count += 1]. *)
Definition decayed (self : t) : t :=
  {| count := count self * 0.8705; start := start self; limit := limit self |}.

Definition incremented (self : t) : t :=
  {| count := count self + 1; start := start self; limit := limit self |}.

(** What holds of an object however it was used: [count] is not negative,
    and it is 0 unless [start] is not negative. *)
Definition wf (self : t) : Prop :=
  0 <= count self /\ (count self = 0 \/ 0 <= start self).

(** Calls on the object, for statements about sequences of calls. *)
Inductive op : Type := Backoff | Wait.




(** [k] consecutive calls of [wait] *)
Fixpoint wait_times (k : nat) (self : t) : M t :=
  match k with
  | O => mret self
  | S k' => self' ← wait self; wait_times k' self'
  end.

(** Each of the [k] calls computes a delay above the floor of 0.01s. *)
Fixpoint delays_exceed_floor (k : nat) (self : t) (w : World) : Prop :=
  match k with
  | O => True
  | S k' =>
      wait_interval self > 0.01 /\
      match wait self w with
      | (Return self', w') => delays_exceed_floor k' self' w'
      | _ => False
      end
  end.

End ExponentialBackoff.

(** ** The download engine (bhav_copy.py) *)

(** [DL = collections.namedtuple('Download', ['url', 'rfile', 'lfile', 'status'])] *)
Record DL : Type := mkDL {
  url : string;
  rfile : string;
  lfile : option string;
  status : Z
}.

(** What a source yields: [(url, dated_file)]. *)
Definition DownloadTask : Type := string * string.

Definition len {A} (l : list A) : Z := Z.of_nat (length l).

(** [partition(pred, iterable)]: [pred(x) == False] first, then [pred(x) == True]. *)
Definition partition {A} (pred : A -> Prop) `{!forall x, Decision (pred x)}
    (iterable : list A) : list A * list A :=
  (filter (fun x => ~ pred x) iterable, filter pred iterable).

(** [for block in resp.iter_content(256*1024): handle.write(block)] *)
Fixpoint write_blocks (filename : string) (blocks : list string) : M unit :=
  match blocks with
  | [] => mret tt
  | block :: blocks' => handle_write filename block ;; write_blocks filename blocks'
  end.

(** the [with open(filename, 'wb') as handle] statement *)
Definition save_body (filename : string) (resp : Response) : M unit :=
  open_wb filename ;;
  write_blocks filename (iter_content resp (256 * 1024)) ;;
  match iter_error resp with
  | Some e => raise e
  | None => mret tt
  end.

(** One turn of the [for] loop of [_download]: the result it appends
    and the backoff object as it leaves it. *)
Definition _download_item (downloader : string -> M Response) (dest_dir : string)
    (i : Z) (source : DownloadTask) (exp_back : ExponentialBackoff.t)
  : M (DL * ExponentialBackoff.t) :=
  let '(item, dated_file) := source in
  emit (EvProgress i dated_file) ;;
  resp ← downloader item;
  if negb (ok resp) then
    emit (EvWarn item (status_code resp)) ;;
    let result := mkDL item dated_file None (status_code resp) in
    exp_back ← (if (status_code resp =? 401)%Z
                then ExponentialBackoff.backoff exp_back
                else mret exp_back);
    mret (result, exp_back)
  else
    filename ← path_abspath (path_join dest_dir dated_file);
    save_body filename resp ;;
    let result := mkDL item dated_file (Some filename) (status_code resp) in
    exp_back ← ExponentialBackoff.wait exp_back;
    mret (result, exp_back).

Fixpoint _download_loop (downloader : string -> M Response) (dest_dir : string)
    (i : Z) (sources : list DownloadTask) (exp_back : ExponentialBackoff.t)
    (results : list DL) : M (list DL) :=
  match sources with
  | [] => mret results
  | source :: sources' =>
      '(result, exp_back) ← _download_item downloader dest_dir i source exp_back;
      _download_loop downloader dest_dir (i + 1) sources' exp_back (results ++ [result])
  end.

(** [_download(sources, dest_dir, downloader, retries=3)]; [retries] is
    not used by the body. *)
Definition _download (sources : list DownloadTask) (dest_dir : string)
    (downloader : string -> M Response) : M (list DL) :=
  let exp_back := ExponentialBackoff.init 0.5 64 in
  _download_loop downloader dest_dir 0 sources exp_back [].

Definition non_empty {A} (l : list A) : bool :=
  match l with [] => false | _ => true end.

(** [lambda r: r.lfile is not None] *)
Definition saved (r : DL) : Prop := lfile r <> None.

(** [not f.status == 404] *)
Definition retryable (f : DL) : Prop := status f <> 404.

(** [(r.url, r.rfile)] *)
Definition source_of (r : DL) : DownloadTask := (url r, rfile r).

(** [download(sources, dest_dir, attempt)]. The recursion is on
    [attempt], which grows up to 4; [fuel] bounds its depth. *)
Fixpoint download_rec (fuel : nat) (sources : list DownloadTask) (dest_dir : string)
    (attempt : Z) : M (list DL * list DL) :=
  let retry_on_fail := bool_decide (attempt <= 3) in
  let downloader := requests_get in
  results ← _download sources dest_dir downloader;
  let '(fails, successes) := partition saved results in
  let retryables := filter retryable fails in
  '(fails, successes) ←
    (if (non_empty retryables && retry_on_fail)%bool then
       match fuel with
       | O => out_of_fuel
       | S fuel' =>
           '(retry_fail, retry_success) ←
             download_rec fuel' (map source_of retryables) dest_dir (attempt + 1);
           let successes := successes ++ retry_success in
           let success_urls : gset string := list_to_set (map url retry_success) in
           let fails := filter (fun f => url f ∉ success_urls) fails in
           mret (fails, successes)
       end
     else if non_empty retryables then
       emit (EvGivingUp (len fails)) ;; mret (fails, successes)
     else mret (fails, successes));
  emit (EvSummary (len results) (len successes) (len fails)) ;;
  mret (fails, successes).

(** The depth the recursion can reach from [attempt]. *)
Definition retries_left (attempt : Z) : nat := Z.to_nat (4 - attempt).

Definition download (sources : list DownloadTask) (dest_dir : string) (attempt : Z)
  : M (list DL * list DL) :=
  download_rec (retries_left attempt) sources dest_dir attempt.

(** The end of a call of [download]: the summary is printed and the
    two lists are returned. *)
Definition finish (results fails successes : list DL) (w : World)
  : Outcome (list DL * list DL) * World :=
  (Return (fails, successes),
   log_event (EvSummary (len results) (len successes) (len fails)) w).

(** ** What a run shows *)

(** The part of the trace that tells what the engine did: requests,
    file operations, calls on the backoff object and summaries. *)
Inductive Action : Type :=
| Fetch (item : string)
| Open (filename : string)
| Write (filename block : string)
| Call (o : ExponentialBackoff.op)
| Summary (n s f : Z).

Definition action_of (e : Event) : option Action :=
  match e with
  | EvGet item _ => Some (Fetch item)
  | EvOpen filename => Some (Open filename)
  | EvWrite filename block => Some (Write filename block)
  | EvBackoff _ => Some (Call ExponentialBackoff.Backoff)
  | EvWait _ => Some (Call ExponentialBackoff.Wait)
  | EvSummary n s f => Some (Summary n s f)
  | _ => None
  end.

Definition protocol (tr : list Event) : list Action := omap action_of tr.

(** The file system after the file operations of a protocol. *)
Definition replay_action (fs : gmap string string) (a : Action) : gmap string string :=
  match a with
  | Open filename => <[filename := ""]> fs
  | Write filename block =>
      <[filename := String.append (default "" (fs !! filename)) block]> fs
  | _ => fs
  end.

Definition replay (p : list Action) (fs : gmap string string) : gmap string string :=
  fold_left replay_action p fs.

(** The blocks of a body, one after the other. *)
Definition joined (blocks : list string) : string :=
  fold_right String.append "" blocks.

(** The events a run from [w] to [w'] has added to the trace. *)
Definition events_since (w w' : World) : list Event :=
  drop (length (trace w)) (trace w').

(** An event that is no file operation. *)
Definition quiet (e : Event) : Prop :=
  match e with EvOpen _ | EvWrite _ _ => False | _ => True end.

(** What a computation has done between two worlds: the surroundings
    are the same, [k] requests were sent, [tr] was added to the trace
    and the files are what the file operations of [tr] make them. *)
Definition steps (w w' : World) (tr : list Event) (k : nat) : Prop :=
  env w' = env w /\ requests w' = (requests w + k)%nat /\ trace w' = trace w ++ tr /\
  files w' = replay (protocol tr) (files w).

(** The urls requested, in order. *)
Definition fetched (p : list Action) : list string :=
  omap (fun a => match a with Fetch item => Some item | _ => None end) p.

(** The summaries printed, one at the end of every call of [download]. *)
Definition summaries (p : list Action) : list (Z * Z * Z) :=
  omap (fun a => match a with Summary n s f => Some (n, s, f) | _ => None end) p.

(** The requests and the calls on the backoff object, in order. *)
Definition fetches_and_calls (p : list Action) : list Action :=
  omap (fun a => match a with Fetch _ | Call _ => Some a | _ => None end) p.

(** The calls on the backoff object a result stands for: [wait] after
    a file was saved, [backoff] after a failure with status 401, none
    after another failure. *)
Definition expected_calls (r : DL) : list ExponentialBackoff.op :=
  if decide (lfile r = None)
  then if decide (status r = 401) then [ExponentialBackoff.Backoff] else []
  else [ExponentialBackoff.Wait].

(** What one turn of the loop of [_download] returns and does, as a
    function of the answer to its request (the [n]-th of the run). *)
Definition item_sem (e : Env) (dest_dir : string) (n : nat) (source : DownloadTask)
  : (Exn + DL) * list Action :=
  let '(item, dated_file) := source in
  match net e n item with
  | inl exn => (inl exn, [Fetch item])
  | inr resp =>
      if negb (ok resp) then
        (inr (mkDL item dated_file None (status_code resp)),
         Fetch item ::
           if (status_code resp =? 401)%Z then [Call ExponentialBackoff.Backoff] else [])
      else
        let filename := abspath e (path_join dest_dir dated_file) in
        if openable e filename then
          let writes := map (Write filename) (iter_content resp (256 * 1024)) in
          match iter_error resp with
          | Some exn => (inl exn, Fetch item :: Open filename :: writes)
          | None =>
              (inr (mkDL item dated_file (Some filename) (status_code resp)),
               Fetch item :: Open filename :: writes ++ [Call ExponentialBackoff.Wait])
          end
        else (inl (IOError EACCES), [Fetch item])
  end.

(** The same for a whole pass whose first request is the [n]-th. *)
Fixpoint pass_sem (e : Env) (dest_dir : string) (n : nat) (sources : list DownloadTask)
  : (Exn + list DL) * list Action :=
  match sources with
  | [] => (inr [], [])
  | source :: sources' =>
      match item_sem e dest_dir n source with
      | (inl exn, p) => (inl exn, p)
      | (inr r, p) =>
          match pass_sem e dest_dir (S n) sources' with
          | (inl exn, p') => (inl exn, p ++ p')
          | (inr rs, p') => (inr (r :: rs), p ++ p')
          end
      end
  end.

(** The backoff objects [_download] works with: their delays are not
    negative, so that [time.sleep] accepts them. *)
Definition polite (exp_back : ExponentialBackoff.t) : Prop :=
  (0 <= ExponentialBackoff.start exp_back)%R /\ (0 <= ExponentialBackoff.limit exp_back)%R.


(** A remote side that gives the same answer to every request. *)
Definition always (resp : Response) : nat -> string -> Exn + Response :=
  fun _ _ => inr resp.

(** A remote side that answers the requests of a run one after the
    other from a script, and cannot be reached once it is exhausted. *)
Definition scripted (script : list Response) : nat -> string -> Exn + Response :=
  fun n _ => match script !! n with Some resp => inr resp | None => inl ConnectionError end.

(** A response with status [code] and body [body]; [ok] as [requests]
    computes it. *)
Definition response (code : Z) (body : list string) : Response :=
  {| ok := bool_decide (~ (400 <= code < 600)); status_code := code;
     iter_content := fun _ => body; iter_error := None |}.

(** Three days of bhav copy, for examples. *)
Definition eq040116 : DownloadTask :=
  ("http://www.bseindia.com/download/BhavCopy/Equity/eq040116_csv.zip", "eq040116_csv.zip").
Definition eq050116 : DownloadTask :=
  ("http://www.bseindia.com/download/BhavCopy/Equity/eq050116_csv.zip", "eq050116_csv.zip").
Definition eq060116 : DownloadTask :=
  ("http://www.bseindia.com/download/BhavCopy/Equity/eq060116_csv.zip", "eq060116_csv.zip").


(** ** Sources *)

(** [class Source]: the weekday iteration over a date range, shared by
    the sources that build one url per day. [url_for_date] is the method
    the subclass supplies ([EquitySource] formats the date into the file
    name); it is a parameter here. *)
Module Source.

(** [timedelta(days=1)] on ordinals *)
Definition one_day : Z := 1.

(** [date.weekday()]: Monday is 0 and Sunday is 6. *)
Definition weekday (d : Z) : Z := (d + 6) mod 7.

Section Source.

Variable url_for_date : Z -> DownloadTask.

(** The [while] loop of [urls_for_range], from [current_date] on; the
    list is the sequence of the values the generator yields. *)
Equations? urls_from (current_date end_date : Z) : list DownloadTask
  by wf (Z.to_nat (end_date - current_date)) lt :=
urls_from current_date end_date with Z_lt_dec current_date end_date => {
  | left _ =>
      (if bool_decide (weekday current_date ∉ [5; 6])
       then [url_for_date current_date] else [])
      ++ urls_from (current_date + one_day) end_date
  | right _ => [] }.
Proof. unfold one_day. lia. Qed.

Definition urls_for_range (start_date end_date : Z) : list DownloadTask :=
  urls_from start_date end_date.

End Source.




End Source.

(** [class YahooSource] (yahoo.py): one url for a symbol over a whole
    range. The dates are read through their [year], [month] and [day]
    attributes only. *)
Module YahooSource.

Record datetime : Type := mkdatetime { year : Z; month : Z; day : Z }.

Record t : Type := mk { url_root : string; symbol : string }.

Definition file_type_prefix : string := "table".
Definition file_type_suffix : string := ".csv".

(** [__init__] *)
Definition init (symbol : string) : t :=
  {| url_root := "http://real-chart.finance.yahoo.com"; symbol := symbol |}.

(** The values of the [params] dictionary. *)
Inductive PyVal : Type :=
| PyStr (s : string)
| PyInt (n : Z).

(** [str(v)] *)
Definition str (v : PyVal) : string :=
  match v with
  | PyStr s => s
  | PyInt n => pretty n
  end.

(** [urllib.quote_plus]: letters, digits and [_.-] stay, a space
    becomes [+], any other byte becomes [%XX]. *)
Definition always_safe (c : ascii) : bool :=
  let n := N_of_ascii c in
  ((65 <=? n) && (n <=? 90) || (97 <=? n) && (n <=? 122) || (48 <=? n) && (n <=? 57)
   || (n =? 95) || (n =? 46) || (n =? 45))%N%bool.

Definition hex_digit (n : N) : ascii :=
  if (n <? 10)%N then ascii_of_N (48 + n) else ascii_of_N (55 + n).

Definition quote_char (c : ascii) : string :=
  if always_safe c then String c ""
  else if Ascii.eqb c " "%char then "+"
  else let n := N_of_ascii c in
       String "%"%char (String (hex_digit (n / 16)) (String (hex_digit (n mod 16)) "")).

Fixpoint quote_plus (s : string) : string :=
  match s with
  | EmptyString => ""
  | String c s' => (quote_char c ++ quote_plus s')%string
  end.

(** ['&'.join(l)] *)
Fixpoint join_amp (l : list string) : string :=
  match l with
  | [] => ""
  | [x] => x
  | x :: l' => (x ++ "&" ++ join_amp l')%string
  end.

Section urlencode.

(** [dict.items()]: the pairs of a dictionary in the order the
    interpreter iterates over it, which the language leaves open. *)
Variable dict_items : gmap string PyVal -> list (string * PyVal).

(** one [k + '=' + v] of [urlencode] *)
Definition encode_pair (kv : string * PyVal) : string :=
  (quote_plus (fst kv) ++ "=" ++ quote_plus (str (snd kv)))%string.

(** [urllib.urlencode(query)] for a dictionary *)
Definition urlencode (query : gmap string PyVal) : string :=
  join_amp (map encode_pair (dict_items query)).

(** the [params] dictionary of [urls_for_range] *)
Definition params (self : t) (start_date end_date : datetime) : gmap string PyVal :=
  <["ignore" := PyStr ".csv"]>
  (<["g" := PyStr "d"]>
  (<["f" := PyInt (year end_date)]>
  (<["e" := PyInt (day end_date)]>
  (<["d" := PyInt (month end_date - 1)]>
  (<["c" := PyInt (year start_date)]>
  (<["b" := PyInt (day start_date)]>
  (<["a" := PyInt (month start_date - 1)]>
  (<["s" := PyStr (symbol self)]> ∅)))))))).

(** [urls_for_range]: the list of the values the generator yields. *)
Definition urls_for_range (self : t) (start_date end_date : datetime) : list string :=
  let query := urlencode (params self start_date end_date) in
  [(url_root self ++ "/" ++ file_type_prefix ++ file_type_suffix ++ "?" ++ query)%string].

End urlencode.

End YahooSource.

(** ** Further vocabulary *)

(** The durations slept during a run, in order. *)
Definition sleeps (tr : list Event) : list R :=
  omap (fun e => match e with EvSleep secs => Some secs | _ => None end) tr.


(** The paths the sources of a pass are saved under. *)
Definition targets (e : Env) (dest_dir : string) (sources : list DownloadTask) : list string :=
  map (fun source => abspath e (path_join dest_dir (snd source))) sources.


(** A file operation on [f]. *)
Definition touches (f : string) (a : Action) : Prop :=
  a = Open f \/ exists block, a = Write f block.

(** A remote side that answers every request with an empty body and
    status 200. *)
Definition always_ok : nat -> string -> Exn + Response := always (response 200 []).


(** [class EquitySource]: the task of a day. The date is read through
    [strftime] only. *)
Module EquitySource.

Record date : Type := mkdate { year : Z; month : Z; day : Z }.

(** What the fields of a date can be. *)
Definition valid (d : date) : Prop :=
  1 <= year d <= 9999 /\ 1 <= month d <= 12 /\ 1 <= day d <= 31.

Record t : Type := mk { url_root : string }.

Definition file_type_prefix : string := "eq".
Definition file_type_suffix : string := "_csv.zip".

(** [__init__] *)
Definition init : t :=
  {| url_root := "http://www.bseindia.com/download/BhavCopy/Equity/" |}.

(** A number below 100 in two decimal digits, as [%d], [%m] and [%y]
    print it. *)
Definition two_digits (n : Z) : string :=
  String (pretty_N_char (Z.to_N (n / 10))) (String (pretty_N_char (Z.to_N (n mod 10))) "").

(** [date.strftime("%d%m%y")]: day, month and year without century.
    In Python 2 it raises [ValueError] for a year before 1900: [None]. *)
Definition strftime_dmy (d : date) : option string :=
  if decide (year d < 1900) then None
  else Some (two_digits (day d) ++ two_digits (month d) ++ two_digits (year d mod 100))%string.

(** [urlparse.urljoin(base, name)] for a base that ends in [/] and a
    plain file name: the name takes the place of the empty last segment
    of the base. *)
Definition urljoin (base name : string) : string := (base ++ name)%string.

(** [url_for_date] *)
Definition url_for_date (self : t) (d : date) : option DownloadTask :=
  match strftime_dmy d with
  | None => None
  | Some stamp =>
      let dated_file := (file_type_prefix ++ stamp ++ file_type_suffix)%string in
      Some (urljoin (url_root self) dated_file, dated_file)
  end.

End EquitySource.

(** * Properties *)

(** ** Running the effect monad *)

Lemma run_bind {A B} (m : M A) (k : A -> M B) (w : World) :
  (m ≫= k) w =
  match m w with
  | (Return a, w') => k a w'
  | (Raise e, w') => (Raise e, w')
  | (OutOfFuel, w') => (OutOfFuel, w')
  end.
Proof. reflexivity. Qed.

Lemma run_ret {A} (a : A) (w : World) : (mret a : M A) w = (Return a, w).
Proof. reflexivity. Qed.

Lemma run_emit_bind {B} (e : Event) (k : unit -> M B) (w : World) :
  (emit e ≫= k) w = k tt (log_event e w).
Proof. reflexivity. Qed.

Lemma run_sleep (secs : R) (w : World) :
  (0 <= secs)%R -> time_sleep secs w = (Return tt, log_event (EvSleep secs) w).
Proof.
  intros Hs. unfold time_sleep. destruct (Rlt_dec secs 0) as [Hneg|_]; [lra|reflexivity].
Qed.

Lemma run_sleep_negative (secs : R) (w : World) :
  (secs < 0)%R -> time_sleep secs w = (Raise (IOError EINVAL), w).
Proof.
  intros Hs. unfold time_sleep. destruct (Rlt_dec secs 0) as [_|Hpos]; [reflexivity|lra].
Qed.

Lemma protocol_app (tr1 tr2 : list Event) :
  protocol (tr1 ++ tr2) = protocol tr1 ++ protocol tr2.
Proof. apply omap_app. Qed.

Lemma replay_app (p1 p2 : list Action) (fs : gmap string string) :
  replay (p1 ++ p2) fs = replay p2 (replay p1 fs).
Proof. apply fold_left_app. Qed.

Lemma steps_refl (w : World) : steps w w [] 0.
Proof. unfold steps. rewrite app_nil_r, Nat.add_0_r. auto. Qed.

Lemma steps_trans (w1 w2 w3 : World) (tr1 tr2 : list Event) (k1 k2 : nat) :
  steps w1 w2 tr1 k1 -> steps w2 w3 tr2 k2 -> steps w1 w3 (tr1 ++ tr2) (k1 + k2).
Proof.
  intros (He1 & Hr1 & Ht1 & Hf1) (He2 & Hr2 & Ht2 & Hf2). unfold steps.
  rewrite He2, He1, Hr2, Hr1, Ht2, Ht1, app_assoc, Hf2, Hf1, protocol_app, replay_app.
  split; [reflexivity|]. split; [lia|]. split; reflexivity.
Qed.

Lemma steps_log_event (e : Event) (w : World) :
  quiet e -> steps w (log_event e w) [e] 0.
Proof.
  intros Hq. unfold steps, log_event. simpl. rewrite Nat.add_0_r.
  repeat split. destruct e; simpl in *; try reflexivity; contradiction.
Qed.

Lemma steps_events_since (w w' : World) (tr : list Event) (k : nat) :
  steps w w' tr k -> events_since w w' = tr.
Proof. intros (_ & _ & Ht & _). unfold events_since. rewrite Ht. apply drop_app_length. Qed.

Lemma fetched_app (p1 p2 : list Action) : fetched (p1 ++ p2) = fetched p1 ++ fetched p2.
Proof. apply omap_app. Qed.

Lemma summaries_app (p1 p2 : list Action) :
  summaries (p1 ++ p2) = summaries p1 ++ summaries p2.
Proof. apply omap_app. Qed.

(** ** ExponentialBackoff *)

Module BackoffProps.
Import ExponentialBackoff.
Local Open Scope R_scope.


Lemma wait_above (self : t) (w : World) :
  wait_interval self > 0.01 ->
  wait self w =
  (Return (decayed self),
   log_event (EvSleep (wait_interval self))
     (log_event (EvWaiting (wait_interval self))
        (log_event (EvWait (wait_interval self)) w))).
Proof.
  intros Habove. unfold wait. rewrite run_emit_bind.
  destruct (Rgt_dec (wait_interval self) 0.01) as [_|Hn]; [|contradiction].
  rewrite run_emit_bind, run_bind, run_sleep by lra. reflexivity.
Qed.

Lemma wait_below (self : t) (w : World) :
  wait_interval self <= 0.01 ->
  wait self w = (Return self, log_event (EvWait (wait_interval self)) w).
Proof.
  intros Hbelow. unfold wait. rewrite run_emit_bind.
  destruct (Rgt_dec (wait_interval self) 0.01) as [Hgt|_]; [lra|reflexivity].
Qed.


Lemma backoff_run (self : t) (w : World) :
  backoff self w =
  if Rlt_dec (interval self) 0
  then (Raise (IOError EINVAL), log_event (EvBackoff (interval self)) w)
  else (Return (incremented self),
        log_event (EvSleep (interval self)) (log_event (EvBackoff (interval self)) w)).
Proof.
  unfold backoff. rewrite run_emit_bind, run_bind. unfold time_sleep.
  destruct (Rlt_dec (interval self) 0); reflexivity.
Qed.

Lemma Rpower_2_pos (c : R) : 0 < Rpower 2 c.
Proof. unfold Rpower. apply exp_pos. Qed.



Lemma interval_init (start limit : R) : interval (init start limit) = Rmin limit start.
Proof. unfold interval, init. simpl. rewrite Rpower_O by lra. f_equal. lra. Qed.





(** *** Decay of [count] under [wait] *)

Lemma wait_times_decays (k : nat) :
  forall (self : t) (w : World),
    delays_exceed_floor k self w ->
    exists self' w',
      wait_times k self w = (Return self', w') /\
      count self' = count self * 0.8705 ^ k /\
      start self' = start self /\ limit self' = limit self.
Proof.
  induction k as [|k IH]; intros self w Hpre.
  - exists self, w. simpl. split; [reflexivity|]. split; [lra|]. split; reflexivity.
  - destruct Hpre as [Habove Hrest]. rewrite wait_above in Hrest by exact Habove.
    destruct (IH _ _ Hrest) as (self' & w' & Hrun & Hcount & Hstart & Hlimit).
    exists self', w'. split.
    + cbn [wait_times]. rewrite run_bind, wait_above by exact Habove. exact Hrun.
    + rewrite Hcount, Hstart, Hlimit. simpl. repeat split; lra.
Qed.


Lemma wait_interval_above (self : t) :
  0.01 < start self * count self -> wait_interval self > 0.01.
Proof.
  intros H. unfold wait_interval.
  apply Rlt_le_trans with (start self * count self); [exact H|apply Rmax_r].
Qed.


(** *** The invariant of the object *)







End BackoffProps.

(** ** One pass: [_download] *)

Module PassProps.
Import ExponentialBackoff BackoffProps.

Lemma polite_init : polite (init 0.5 64).
Proof. unfold polite, init. simpl. lra. Qed.

Lemma polite_interval (self : t) : polite self -> (0 <= interval self)%R.
Proof.
  intros [Hs Hl]. unfold interval. apply Rmin_glb; [exact Hl|].
  pose proof (Rpower_2_pos (count self)). nra.
Qed.

(** With delays that are not negative, [backoff] returns. *)
Lemma backoff_polite (self : t) (w : World) :
  polite self ->
  exists self' w' tr,
    backoff self w = (Return self', w') /\ polite self' /\
    steps w w' tr 0 /\ protocol tr = [Call Backoff].
Proof.
  intros Hp. pose proof (polite_interval self Hp) as Hi.
  rewrite backoff_run. destruct (Rlt_dec (interval self) 0) as [Hneg|_]; [lra|].
  eexists _, _, ([EvBackoff (interval self)] ++ [EvSleep (interval self)]).
  split; [reflexivity|]. split; [exact Hp|]. split; [|reflexivity].
  eapply (steps_trans _ _ _ _ _ 0 0); apply steps_log_event; exact I.
Qed.

Lemma wait_polite (self : t) (w : World) :
  polite self ->
  exists self' w' tr,
    wait self w = (Return self', w') /\ polite self' /\
    steps w w' tr 0 /\ protocol tr = [Call Wait].
Proof.
  intros Hp. destruct (Rgt_dec (wait_interval self) 0.01) as [Hgt|Hle].
  - rewrite wait_above by exact Hgt.
    eexists _, _, ([EvWait _] ++ [EvWaiting _] ++ [EvSleep _]).
    split; [reflexivity|]. split; [exact Hp|]. split; [|reflexivity].
    eapply (steps_trans _ _ _ _ _ 0 0); [apply steps_log_event; exact I|].
    eapply (steps_trans _ _ _ _ _ 0 0); apply steps_log_event; exact I.
  - rewrite wait_below by lra.
    eexists _, _, [EvWait _].
    split; [reflexivity|]. split; [exact Hp|]. split; [|reflexivity].
    apply steps_log_event. exact I.
Qed.

Lemma requests_get_run (item : string) (w : World) :
  exists w',
    requests_get item w =
      (match net (env w) (requests w) item with
       | inl exn => Raise exn
       | inr resp => Return resp
       end, w') /\
    steps w w' [EvGet item (net (env w) (requests w) item)] 1.
Proof.
  unfold requests_get.
  exists {| env := env w; requests := S (requests w); files := files w;
            trace := trace w ++ [EvGet item (net (env w) (requests w) item)] |}.
  split.
  - destruct (net (env w) (requests w) item); reflexivity.
  - unfold steps. simpl. rewrite Nat.add_1_r. auto.
Qed.

Lemma open_wb_run (filename : string) (w : World) :
  openable (env w) filename = true ->
  exists w', open_wb filename w = (Return tt, w') /\ steps w w' [EvOpen filename] 0.
Proof.
  intros Hopen. unfold open_wb. rewrite Hopen. eexists. split; [reflexivity|].
  unfold steps. simpl. rewrite Nat.add_0_r. auto.
Qed.

Lemma write_blocks_run (filename : string) (blocks : list string) :
  forall w : World,
    exists w', write_blocks filename blocks w = (Return tt, w') /\
      steps w w' (map (EvWrite filename) blocks) 0.
Proof.
  induction blocks as [|block blocks IH]; intros w; simpl.
  - exists w. split; [reflexivity|apply steps_refl].
  - rewrite run_bind. unfold handle_write at 1.
    match goal with |- context [write_blocks _ _ ?w1] => destruct (IH w1) as (w' & Hrun & Hsteps) end.
    exists w'. split; [exact Hrun|].
    eapply (steps_trans _ _ _ [EvWrite filename block] _ 0 0); [|exact Hsteps].
    unfold steps. simpl. rewrite Nat.add_0_r. auto.
Qed.

Lemma protocol_writes (filename : string) (blocks : list string) :
  protocol (map (EvWrite filename) blocks) = map (Write filename) blocks.
Proof.
  induction blocks as [|b bs IH]; [reflexivity|].
  change (Write filename b :: protocol (map (EvWrite filename) bs) =
          Write filename b :: map (Write filename) bs).
  now rewrite IH.
Qed.

(** One turn of the loop with [requests.get]: what it returns and what
    it does is what [item_sem] tells. *)
Lemma _download_item_run (dest_dir : string) (i : Z) (source : DownloadTask)
    (exp_back : t) (w : World) :
  polite exp_back ->
  exists out w' tr,
    _download_item requests_get dest_dir i source exp_back w = (out, w') /\
    steps w w' tr 1 /\
    protocol tr = snd (item_sem (env w) dest_dir (requests w) source) /\
    match fst (item_sem (env w) dest_dir (requests w) source) with
    | inl exn => out = Raise exn
    | inr r => exists exp_back', out = Return (r, exp_back') /\ polite exp_back'
    end.
Proof.
  intros Hp. destruct source as [item dated_file]. unfold _download_item, item_sem.
  rewrite run_emit_bind, run_bind.
  pose proof (steps_log_event (EvProgress i dated_file) w I) as H0.
  destruct (requests_get_run item (log_event (EvProgress i dated_file) w))
    as (w1 & Hget & H1).
  rewrite Hget. simpl env in *. simpl requests in *.
  pose proof (steps_trans _ _ _ _ _ _ _ H0 H1) as H01. clear H0 H1 Hget.
  destruct (net (env w) (requests w) item) as [exn|resp] eqn:Hnet.
  - (* the request raises *)
    eexists _, _, _. split; [reflexivity|]. split; [exact H01|]. split; reflexivity.
  - destruct (ok resp) eqn:Hok; cbn [negb].
    + (* success *)
      rewrite run_bind. unfold path_abspath.
      assert (Henv : env w1 = env w) by apply H01. rewrite Henv.
      set (filename := abspath (env w) (path_join dest_dir dated_file)).
      rewrite run_bind. unfold save_body. rewrite run_bind.
      destruct (openable (env w) filename) eqn:Hopen.
      * destruct (open_wb_run filename w1) as (w2 & Hrun2 & H2);
          [rewrite Henv; exact Hopen|].
        rewrite Hrun2, run_bind.
        destruct (write_blocks_run filename (iter_content resp (256 * 1024)) w2)
          as (w3 & Hrun3 & H3).
        rewrite Hrun3.
        pose proof (steps_trans _ _ _ _ _ _ _ H01 (steps_trans _ _ _ _ _ _ _ H2 H3)) as H03.
        destruct (iter_error resp) as [exn|].
        -- eexists _, _, _. split; [reflexivity|]. split; [exact H03|].
           split; [|reflexivity].
           rewrite !protocol_app, protocol_writes. reflexivity.
        -- rewrite run_ret, run_bind.
           destruct (wait_polite exp_back w3 Hp) as (eb' & w4 & tr4 & Hrun4 & Hp' & H4 & Hproto).
           rewrite Hrun4.
           eexists _, _, _. split; [reflexivity|].
           split; [exact (steps_trans _ _ _ _ _ _ _ H03 H4)|].
           split; [|simpl; eauto].
           rewrite !protocol_app, protocol_writes, Hproto. reflexivity.
      * unfold open_wb. rewrite Henv, Hopen.
        eexists _, _, _. split; [reflexivity|]. split; [exact H01|]. split; reflexivity.
    + (* failure *)
      rewrite run_emit_bind, run_bind.
      pose proof (steps_trans _ _ _ _ _ _ _ H01
                    (steps_log_event (EvWarn item (status_code resp)) w1 I)) as H02.
      destruct (status_code resp =? 401)%Z.
      * destruct (backoff_polite exp_back (log_event (EvWarn item (status_code resp)) w1) Hp)
          as (eb' & w3 & tr3 & Hrun3 & Hp' & H3 & Hproto).
        rewrite Hrun3.
        eexists _, _, _. split; [reflexivity|].
        split; [exact (steps_trans _ _ _ _ _ _ _ H02 H3)|].
        split; [|simpl; eauto].
        rewrite !protocol_app, Hproto. reflexivity.
      * rewrite run_ret.
        eexists _, _, _. split; [reflexivity|]. split; [exact H02|].
        split; [|simpl; eauto]. reflexivity.
Qed.

Lemma _download_loop_run (dest_dir : string) (sources : list DownloadTask) :
  forall (i : Z) (exp_back : t) (results : list DL) (w : World),
    polite exp_back ->
    exists out w' tr k,
      _download_loop requests_get dest_dir i sources exp_back results w = (out, w') /\
      steps w w' tr k /\
      protocol tr = snd (pass_sem (env w) dest_dir (requests w) sources) /\
      match fst (pass_sem (env w) dest_dir (requests w) sources) with
      | inl exn => out = Raise exn
      | inr rs => out = Return (results ++ rs) /\ k = length sources
      end.
Proof.
  induction sources as [|source sources IH]; intros i exp_back results w Hp.
  - exists (Return results), w, [], 0%nat. simpl. rewrite app_nil_r.
    split; [reflexivity|]. split; [apply steps_refl|]. auto.
  - cbn [_download_loop pass_sem]. rewrite run_bind.
    destruct (_download_item_run dest_dir i source exp_back w Hp)
      as (out1 & w1 & tr1 & Hrun1 & H1 & Hproto1 & Hout1).
    rewrite Hrun1.
    destruct (item_sem (env w) dest_dir (requests w) source) as [[exn|r] p1]; simpl in *.
    + subst out1. eexists _, _, _, _. split; [reflexivity|]. split; [exact H1|]. auto.
    + destruct Hout1 as (exp_back1 & -> & Hp1).
      destruct (IH (i + 1) exp_back1 (results ++ [r]) w1 Hp1)
        as (out2 & w2 & tr2 & k2 & Hrun2 & H2 & Hproto2 & Hout2).
      destruct H1 as (He1 & Hr1 & Ht1 & Hf1).
      rewrite He1, Hr1, Nat.add_1_r in Hproto2, Hout2.
      exists out2, w2, (tr1 ++ tr2), (1 + k2)%nat.
      split; [exact Hrun2|].
      split; [exact (steps_trans _ _ _ _ _ _ _ (conj He1 (conj Hr1 (conj Ht1 Hf1))) H2)|].
      rewrite protocol_app, Hproto1, Hproto2.
      destruct (pass_sem (env w) dest_dir (S (requests w)) sources) as [[exn|rs] p2];
        simpl in *.
      * auto.
      * destruct Hout2 as [-> ->]. rewrite <- app_assoc. auto.
Qed.

(** A pass returns and does what [pass_sem] tells. *)
Lemma _download_run (sources : list DownloadTask) (dest_dir : string) (w : World) :
  exists out w' tr k,
    _download sources dest_dir requests_get w = (out, w') /\
    steps w w' tr k /\
    protocol tr = snd (pass_sem (env w) dest_dir (requests w) sources) /\
    match fst (pass_sem (env w) dest_dir (requests w) sources) with
    | inl exn => out = Raise exn
    | inr rs => out = Return rs /\ k = length sources
    end.
Proof.
  unfold _download. apply (_download_loop_run dest_dir sources 0 _ [] w polite_init).
Qed.

(** The same, read from a run that is given. *)
Lemma _download_returns (sources : list DownloadTask) (dest_dir : string)
    (w w' : World) (results : list DL) :
  _download sources dest_dir requests_get w = (Return results, w') ->
  fst (pass_sem (env w) dest_dir (requests w) sources) = inr results /\
  protocol (events_since w w') = snd (pass_sem (env w) dest_dir (requests w) sources) /\
  steps w w' (events_since w w') (length sources).
Proof.
  intros Hrun.
  destruct (_download_run sources dest_dir w) as (out & w1 & tr & k & Hrun1 & H1 & Hproto & Hout).
  rewrite Hrun in Hrun1. injection Hrun1 as <- <-.
  rewrite (steps_events_since _ _ _ _ H1).
  destruct (pass_sem (env w) dest_dir (requests w) sources) as [[exn|rs] p]; simpl in *.
  - discriminate.
  - destruct Hout as [[= ->] ->]. auto.
Qed.

(** *** What [pass_sem] tells about the results *)

Lemma item_sem_result (e : Env) (dest_dir : string) (n : nat) (item dated_file : string)
    (r : DL) (p : list Action) :
  item_sem e dest_dir n (item, dated_file) = (inr r, p) ->
  exists resp,
    net e n item = inr resp /\
    r = mkDL item dated_file
          (if ok resp then Some (abspath e (path_join dest_dir dated_file)) else None)
          (status_code resp) /\
    p = Fetch item ::
          (if ok resp
           then Open (abspath e (path_join dest_dir dated_file)) ::
                map (Write (abspath e (path_join dest_dir dated_file)))
                    (iter_content resp (256 * 1024)) ++ [Call Wait]
           else if (status_code resp =? 401)%Z then [Call Backoff] else []).
Proof.
  unfold item_sem. destruct (net e n item) as [exn|resp]; [discriminate|].
  intros Hsem. exists resp. split; [reflexivity|].
  destruct (ok resp); simpl in Hsem.
  - destruct (openable e _); [destruct (iter_error resp)|]; try discriminate.
    injection Hsem as <- <-. auto.
  - injection Hsem as <- <-. auto.
Qed.

Lemma pass_sem_cons (e : Env) (dest_dir : string) (n : nat) (source : DownloadTask)
    (sources : list DownloadTask) (rs : list DL) (p : list Action) :
  pass_sem e dest_dir n (source :: sources) = (inr rs, p) ->
  exists r p1 rs' p2,
    item_sem e dest_dir n source = (inr r, p1) /\
    pass_sem e dest_dir (S n) sources = (inr rs', p2) /\
    rs = r :: rs' /\ p = p1 ++ p2.
Proof.
  cbn [pass_sem].
  destruct (item_sem e dest_dir n source) as [[exn|r] p1]; [discriminate|].
  destruct (pass_sem e dest_dir (S n) sources) as [[exn|rs'] p2]; [discriminate|].
  intros [= <- <-]. eauto 10.
Qed.

Lemma pass_sem_lookup (e : Env) (dest_dir : string) (sources : list DownloadTask) :
  forall (n : nat) (rs : list DL) (p : list Action),
    pass_sem e dest_dir n sources = (inr rs, p) ->
    length rs = length sources /\
    forall (k : nat) (r : DL),
      rs !! k = Some r ->
      exists item dated_file resp,
        sources !! k = Some (item, dated_file) /\
        net e (n + k) item = inr resp /\
        r = mkDL item dated_file
              (if ok resp then Some (abspath e (path_join dest_dir dated_file)) else None)
              (status_code resp).
Proof.
  induction sources as [|[item dated_file] sources IH]; intros n rs p Hsem.
  - injection Hsem as <- <-. split; [reflexivity|]. intros k r Hk. discriminate.
  - apply pass_sem_cons in Hsem as (r0 & p1 & rs' & p2 & Hitem & Hrest & -> & ->).
    apply item_sem_result in Hitem as (resp & Hnet & Hr0 & _).
    destruct (IH _ _ _ Hrest) as [Hlen Hlook].
    split; [simpl; now rewrite Hlen|].
    intros [|k] r Hk; simpl in Hk.
    + injection Hk as <-. exists item, dated_file, resp.
      rewrite Nat.add_0_r. auto.
    + destruct (Hlook k r Hk) as (item' & df' & resp' & Hsrc & Hnet' & Hr).
      exists item', df', resp'. rewrite <- Nat.add_succ_comm. auto.
Qed.

Lemma fetched_writes (filename : string) (blocks : list string) :
  fetched (map (Write filename) blocks) = [].
Proof. induction blocks as [|b bs IH]; [reflexivity|exact IH]. Qed.

Lemma summaries_writes (filename : string) (blocks : list string) :
  summaries (map (Write filename) blocks) = [].
Proof. induction blocks as [|b bs IH]; [reflexivity|exact IH]. Qed.

Lemma pass_sem_sources (e : Env) (dest_dir : string) (sources : list DownloadTask) :
  forall (n : nat) (rs : list DL) (p : list Action),
    pass_sem e dest_dir n sources = (inr rs, p) ->
    map source_of rs = sources /\ fetched p = map fst sources /\ summaries p = [].
Proof.
  induction sources as [|[item dated_file] sources IH]; intros n rs p Hsem.
  - injection Hsem as <- <-. auto.
  - apply pass_sem_cons in Hsem as (r0 & p1 & rs' & p2 & Hitem & Hrest & -> & ->).
    apply item_sem_result in Hitem as (resp & Hnet & -> & ->).
    destruct (IH _ _ _ Hrest) as (Hsrc & Hfetched & Hsumm).
    rewrite fetched_app, summaries_app, Hfetched, Hsumm. simpl. rewrite Hsrc.
    split; [reflexivity|].
    destruct (ok resp); [|destruct (status_code resp =? 401)%Z]; simpl.
    + rewrite fetched_app, summaries_app, fetched_writes, summaries_writes. auto.
    + auto.
    + auto.
Qed.

Lemma fetches_and_calls_app (p1 p2 : list Action) :
  fetches_and_calls (p1 ++ p2) = fetches_and_calls p1 ++ fetches_and_calls p2.
Proof. apply omap_app. Qed.

Lemma fetches_and_calls_writes (filename : string) (blocks : list string) :
  fetches_and_calls (map (Write filename) blocks) = [].
Proof. induction blocks as [|b bs IH]; [reflexivity|exact IH]. Qed.

Lemma pass_sem_calls (e : Env) (dest_dir : string) (sources : list DownloadTask) :
  forall (n : nat) (rs : list DL) (p : list Action),
    pass_sem e dest_dir n sources = (inr rs, p) ->
    fetches_and_calls p = flat_map (fun r => Fetch (url r) :: map Call (expected_calls r)) rs.
Proof.
  induction sources as [|[item dated_file] sources IH]; intros n rs p Hsem.
  - injection Hsem as <- <-. reflexivity.
  - apply pass_sem_cons in Hsem as (r0 & p1 & rs' & p2 & Hitem & Hrest & -> & ->).
    apply item_sem_result in Hitem as (resp & Hnet & -> & ->).
    rewrite fetches_and_calls_app, (IH _ _ _ Hrest). cbn [flat_map]. f_equal.
    unfold expected_calls. cbn [fetches_and_calls omap url lfile status].
    destruct (ok resp).
    + cbn. rewrite fetches_and_calls_app, fetches_and_calls_writes. reflexivity.
    + cbn. destruct (Z.eqb_spec (status_code resp) 401) as [Heq|Hne].
      * rewrite (decide_True (P := status_code resp = 401)) by exact Heq. reflexivity.
      * rewrite (decide_False (P := status_code resp = 401)) by exact Hne. reflexivity.
Qed.

Lemma replay_dom_mono (p : list Action) :
  forall (fs : gmap string string) (f : string),
    is_Some (fs !! f) -> is_Some (replay p fs !! f).
Proof.
  induction p as [|a p IH]; intros fs f Hf; [exact Hf|].
  cbn [replay fold_left]. apply IH.
  destruct a as [| f' | f' b | |]; simpl; try exact Hf.
  - destruct (decide (f' = f)) as [->|Hne];
      [rewrite lookup_insert_eq; eauto|rewrite lookup_insert_ne by exact Hne; exact Hf].
  - destruct (decide (f' = f)) as [->|Hne];
      [rewrite lookup_insert_eq; eauto|rewrite lookup_insert_ne by exact Hne; exact Hf].
Qed.

Lemma replay_open_dom (p : list Action) (f : string) :
  forall fs : gmap string string, Open f ∈ p -> is_Some (replay p fs !! f).
Proof.
  induction p as [|a p IH]; intros fs Hin; [inversion Hin|].
  cbn [replay fold_left]. apply elem_of_cons in Hin as [<-|Hin].
  - apply replay_dom_mono. simpl. rewrite lookup_insert_eq. eauto.
  - apply IH. exact Hin.
Qed.

Lemma append_empty_r (s : string) : (s ++ "")%string = s.
Proof.
  induction s as [|a s IH]; [reflexivity|].
  change (String a (s ++ "")%string = String a s). now rewrite IH.
Qed.

Lemma append_assoc (s1 s2 s3 : string) :
  ((s1 ++ s2) ++ s3)%string = (s1 ++ s2 ++ s3)%string.
Proof.
  induction s1 as [|a s1 IH]; [reflexivity|].
  change (String a ((s1 ++ s2) ++ s3)%string = String a (s1 ++ s2 ++ s3)%string).
  now rewrite IH.
Qed.

Lemma replay_writes (f : string) (blocks : list string) :
  forall (fs : gmap string string) (c : string),
    fs !! f = Some c ->
    replay (map (Write f) blocks) fs !! f = Some (c ++ joined blocks)%string.
Proof.
  induction blocks as [|b bs IH]; intros fs c Hc.
  - simpl. rewrite Hc, append_empty_r. reflexivity.
  - cbn [map replay fold_left replay_action]. fold (replay (map (Write f) bs)).
    rewrite (IH _ (c ++ b)%string) by (rewrite Hc; simpl; apply lookup_insert_eq).
    simpl. rewrite append_assoc. reflexivity.
Qed.

Lemma pass_sem_saved (e : Env) (dest_dir : string) (sources : list DownloadTask) :
  forall (n : nat) (rs : list DL) (p : list Action),
    pass_sem e dest_dir n sources = (inr rs, p) ->
    forall (r : DL) (f : string), r ∈ rs -> lfile r = Some f -> Open f ∈ p.
Proof.
  induction sources as [|[item dated_file] sources IH]; intros n rs p Hsem r f Hr Hf.
  - injection Hsem as <- <-. inversion Hr.
  - apply pass_sem_cons in Hsem as (r0 & p1 & rs' & p2 & Hitem & Hrest & -> & ->).
    apply item_sem_result in Hitem as (resp & Hnet & -> & ->).
    apply elem_of_app. apply elem_of_cons in Hr as [->|Hr].
    + left. simpl in Hf. destruct (ok resp); [|discriminate].
      injection Hf as <-. apply elem_of_cons. right. apply elem_of_cons. left. reflexivity.
    + right. eapply IH; eassumption.
Qed.

Lemma _download_item_persists (dest_dir : string) (i : Z) (item dated_file : string)
    (exp_back exp_back' : t) (w w' : World) (r : DL) (f : string) :
  polite exp_back ->
  _download_item requests_get dest_dir i (item, dated_file) exp_back w
    = (Return (r, exp_back'), w') ->
  lfile r = Some f ->
  exists resp,
    net (env w) (requests w) item = inr resp /\ ok resp = true /\
    f = abspath (env w) (path_join dest_dir dated_file) /\
    files w' !! f = Some (joined (iter_content resp (256 * 1024))).
Proof.
  intros Hp Hrun Hf.
  destruct (_download_item_run dest_dir i (item, dated_file) exp_back w Hp)
    as (out & w1 & tr & Hrun1 & (_ & _ & _ & Hfiles) & Hproto & Hout).
  rewrite Hrun in Hrun1. injection Hrun1 as <- <-.
  destruct (item_sem (env w) dest_dir (requests w) (item, dated_file)) as [[exn|r0] p] eqn:Hsem;
    simpl in Hproto, Hout; [discriminate|].
  destruct Hout as (eb1 & [= <- <-] & _).
  apply item_sem_result in Hsem as (resp & Hnet & -> & ->).
  exists resp. split; [exact Hnet|]. simpl in Hf.
  destruct (ok resp); [|discriminate]. injection Hf as <-.
  split; [reflexivity|]. split; [reflexivity|].
  rewrite Hfiles, Hproto.
  change (Fetch item :: Open ?f :: ?ws ++ [Call Wait])
    with ([Fetch item; Open f] ++ ws ++ [Call Wait]).
  rewrite !replay_app. cbn [replay fold_left replay_action].
  fold (replay (map (Write (abspath (env w) (path_join dest_dir dated_file)))
                  (iter_content resp (256 * 1024)))).
  erewrite replay_writes by apply lookup_insert_eq. reflexivity.
Qed.




(** C5: in the results of a pass, [lfile] is set exactly for the
    sources whose response was [ok], and then the file was opened and
    is on disk; a result for a failed request has no [lfile] and the
    status of its response. The file a turn of the loop has saved holds
    the body of the response. *)
Theorem lfile_iff_success :
  (forall (sources : list DownloadTask) (dest_dir : string) (w w' : World)
          (results : list DL),
      _download sources dest_dir requests_get w = (Return results, w') ->
      forall (k : nat) (r : DL),
        results !! k = Some r ->
        exists item dated_file resp,
          sources !! k = Some (item, dated_file) /\
          net (env w) (requests w + k) item = inr resp /\
          (lfile r <> None <-> ok resp = true) /\
          (ok resp = true ->
             lfile r = Some (abspath (env w) (path_join dest_dir dated_file)) /\
             Open (abspath (env w) (path_join dest_dir dated_file))
               ∈ protocol (events_since w w') /\
             is_Some (files w' !! abspath (env w) (path_join dest_dir dated_file))) /\
          (ok resp = false -> lfile r = None) /\
          status r = status_code resp) /\
  (forall (dest_dir : string) (i : Z) (item dated_file : string)
          (exp_back exp_back' : t) (w w' : World) (r : DL) (f : string),
      polite exp_back ->
      _download_item requests_get dest_dir i (item, dated_file) exp_back w
        = (Return (r, exp_back'), w') ->
      lfile r = Some f ->
      exists resp,
        net (env w) (requests w) item = inr resp /\ ok resp = true /\
        files w' !! f = Some (joined (iter_content resp (256 * 1024)))).
Proof.
  split.
  - intros sources dest_dir w w' results Hrun k r Hk.
    destruct (_download_returns _ _ _ _ _ Hrun) as (Hfst & Hproto & (_ & _ & _ & Hfiles)).
    destruct (pass_sem (env w) dest_dir (requests w) sources) as [res p] eqn:Hsem.
    simpl in Hfst, Hproto. subst res.
    destruct (pass_sem_lookup _ _ _ _ _ _ Hsem) as [_ Hlook].
    destruct (Hlook k r Hk) as (item & dated_file & resp & Hsrc & Hnet & ->).
    exists item, dated_file, resp. split; [exact Hsrc|]. split; [exact Hnet|].
    assert (Hopen : ok resp = true ->
              Open (abspath (env w) (path_join dest_dir dated_file)) ∈ p).
    { intros Hok. eapply (pass_sem_saved _ _ _ _ _ _ Hsem).
      - eapply list_elem_of_lookup_2. exact Hk.
      - simpl. now rewrite Hok. }
    simpl. destruct (ok resp).
    + split; [split; [reflexivity|discriminate]|]. split; [|split; [discriminate|reflexivity]].
      intros _. split; [reflexivity|]. rewrite Hproto. split; [now apply Hopen|].
      rewrite Hfiles, Hproto. apply replay_open_dom. now apply Hopen.
    + split; [split; [intros H; now contradiction H|discriminate]|].
      split; [discriminate|]. split; reflexivity.
  - intros dest_dir i item dated_file exp_back exp_back' w w' r f Hp Hrun Hf.
    destruct (_download_item_persists _ _ _ _ _ _ _ _ _ _ Hp Hrun Hf)
      as (resp & Hnet & Hok & _ & Hfile).
    eauto.
Qed.

(** C6: in a pass, what follows the request for a source is one call
    of [wait] when the file was saved, one call of [backoff] when the
    request failed with status 401, and no call on the backoff object
    when it failed with another status. *)
Theorem backoff_only_after_401 :
  forall (sources : list DownloadTask) (dest_dir : string) (w w' : World)
         (results : list DL),
    _download sources dest_dir requests_get w = (Return results, w') ->
    fetches_and_calls (protocol (events_since w w'))
      = flat_map (fun r => Fetch (url r) :: map Call (expected_calls r)) results /\
    forall r : DL,
      (expected_calls r = [Backoff] <-> lfile r = None /\ status r = 401) /\
      (expected_calls r = [Wait] <-> lfile r <> None) /\
      (expected_calls r = [] <-> lfile r = None /\ status r <> 401).
Proof.
  intros sources dest_dir w w' results Hrun. split.
  - destruct (_download_returns _ _ _ _ _ Hrun) as (Hfst & Hproto & _).
    destruct (pass_sem (env w) dest_dir (requests w) sources) as [res p] eqn:Hsem.
    simpl in Hfst, Hproto. subst res. rewrite Hproto.
    eapply pass_sem_calls. exact Hsem.
  - intros r. unfold expected_calls.
    destruct (decide (lfile r = None)) as [Hn|Hn]; [destruct (decide (status r = 401)) as [Hs|Hs]|];
      (repeat split; try discriminate; try tauto; try (intros [? ?]; congruence)).
Qed.

(** A pass over three days: the first file is there, the second request
    is rejected with 401 and the third file is missing. *)
Lemma example_pass :
  exists w',
    _download [eq040116; eq050116; eq060116] "out" requests_get
      (fresh_world (scripted [response 200 ["PK"; "data"]; response 401 []; response 404 []]))
    = (Return [mkDL (fst eq040116) (snd eq040116) (Some "out/eq040116_csv.zip") 200;
               mkDL (fst eq050116) (snd eq050116) None 401;
               mkDL (fst eq060116) (snd eq060116) None 404], w').
Proof.
  destruct (_download_run [eq040116; eq050116; eq060116] "out"
              (fresh_world (scripted [response 200 ["PK"; "data"]; response 401 [];
                                      response 404 []])))
    as (out & w' & tr & k & Hrun & _ & _ & Hout).
  vm_compute in Hout. destruct Hout as [-> _]. exists w'. exact Hrun.
Defined.

Lemma lfile_iff_success_witness :
  exists w',
    fst (_download [eq040116; eq050116; eq060116] "out" requests_get
           (fresh_world (scripted [response 200 ["PK"; "data"]; response 401 [];
                                   response 404 []])))
    = Return [mkDL (fst eq040116) (snd eq040116) (Some "out/eq040116_csv.zip") 200;
              mkDL (fst eq050116) (snd eq050116) None 401;
              mkDL (fst eq060116) (snd eq060116) None 404] /\
    snd (_download [eq040116; eq050116; eq060116] "out" requests_get
           (fresh_world (scripted [response 200 ["PK"; "data"]; response 401 [];
                                   response 404 []]))) = w' /\
    is_Some (files w' !! "out/eq040116_csv.zip").
Proof.
  destruct example_pass as (w' & Hrun). exists w'. rewrite Hrun.
  split; [reflexivity|]. split; [reflexivity|].
  destruct (proj1 lfile_iff_success _ _ _ _ _ Hrun 0%nat _ eq_refl)
    as (item & dated_file & resp & Hsrc & Hnet & _ & Hok & _).
  injection Hsrc as <- <-. injection Hnet as <-.
  apply (Hok eq_refl).
Defined.

Lemma backoff_only_after_401_witness :
  exists w',
    fst (_download [eq040116; eq050116; eq060116] "out" requests_get
           (fresh_world (scripted [response 200 ["PK"; "data"]; response 401 [];
                                   response 404 []])))
    = Return [mkDL (fst eq040116) (snd eq040116) (Some "out/eq040116_csv.zip") 200;
              mkDL (fst eq050116) (snd eq050116) None 401;
              mkDL (fst eq060116) (snd eq060116) None 404] /\
    fetches_and_calls
      (protocol (events_since
         (fresh_world (scripted [response 200 ["PK"; "data"]; response 401 [];
                                 response 404 []])) w'))
    = [Fetch (fst eq040116); Call Wait; Fetch (fst eq050116); Call Backoff;
       Fetch (fst eq060116)].
Proof.
  destruct example_pass as (w' & Hrun). exists w'. rewrite Hrun.
  split; [reflexivity|].
  rewrite (proj1 (backoff_only_after_401 _ _ _ _ _ Hrun)). reflexivity.
Defined.

End PassProps.

(** ** The retries: [download] *)

Module DownloadProps.
Import ExponentialBackoff BackoffProps PassProps.

(** A call of [download] whose pass raises, raises. *)
Lemma download_rec_raise (fuel : nat) (sources : list DownloadTask) (dest_dir : string)
    (attempt : Z) (w w1 : World) (exn : Exn) :
  _download sources dest_dir requests_get w = (Raise exn, w1) ->
  download_rec fuel sources dest_dir attempt w = (Raise exn, w1).
Proof.
  intros Hpass. destruct fuel; cbn [download_rec]; rewrite run_bind, Hpass; reflexivity.
Qed.

(** A call of [download] after its pass has returned. *)
Lemma download_rec_step (fuel : nat) (sources : list DownloadTask) (dest_dir : string)
    (attempt : Z) (w w1 : World) (results : list DL) :
  _download sources dest_dir requests_get w = (Return results, w1) ->
  download_rec fuel sources dest_dir attempt w =
  let fails := filter (fun r => ~ saved r) results in
  let successes := filter saved results in
  let retryables := filter retryable fails in
  if (non_empty retryables && bool_decide (attempt <= 3))%bool then
    match fuel with
    | O => (OutOfFuel, w1)
    | S fuel' =>
        match download_rec fuel' (map source_of retryables) dest_dir (attempt + 1) w1 with
        | (Return (retry_fail, retry_success), w2) =>
            finish results
              (filter (fun f => url f ∉ (list_to_set (map url retry_success) : gset string))
                      fails)
              (successes ++ retry_success) w2
        | (Raise exn, w2) => (Raise exn, w2)
        | (OutOfFuel, w2) => (OutOfFuel, w2)
        end
    end
  else if non_empty retryables
       then finish results fails successes (log_event (EvGivingUp (len fails)) w1)
       else finish results fails successes w1.
Proof.
  intros Hpass. cbv zeta.
  destruct fuel as [|fuel]; cbn [download_rec]; rewrite run_bind, Hpass; unfold partition;
    rewrite run_bind;
    destruct (non_empty (filter retryable (filter (fun r => ~ saved r) results))
              && bool_decide (attempt <= 3))%bool; try reflexivity.
  - destruct (non_empty (filter retryable (filter (fun r => ~ saved r) results)));
      reflexivity.
  - rewrite run_bind.
    destruct (download_rec fuel _ dest_dir (attempt + 1) w1) as [[[rf rs]|exn|] w2];
      reflexivity.
  - destruct (non_empty (filter retryable (filter (fun r => ~ saved r) results)));
      reflexivity.
Qed.

Lemma item_sem_fetched (e : Env) (dest_dir : string) (n : nat) (source : DownloadTask) :
  fetched (snd (item_sem e dest_dir n source)) = [fst source].
Proof.
  destruct source as [item dated_file]. unfold item_sem.
  destruct (net e n item) as [exn|resp]; [reflexivity|].
  destruct (ok resp); simpl.
  - destruct (openable e _); [destruct (iter_error resp)|]; simpl; try reflexivity.
    + change (item :: fetched (map (Write (abspath e (path_join dest_dir dated_file)))
                                   (iter_content resp (256 * 1024))) = [item]).
      now rewrite fetched_writes.
    + change (item :: fetched (map (Write (abspath e (path_join dest_dir dated_file)))
                                   (iter_content resp (256 * 1024)) ++ [Call Wait]) = [item]).
      now rewrite fetched_app, fetched_writes.
  - destruct (status_code resp =? 401)%Z; reflexivity.
Qed.

Lemma pass_sem_fetched (e : Env) (dest_dir : string) (sources : list DownloadTask) :
  forall (n : nat) (u : string),
    u ∈ fetched (snd (pass_sem e dest_dir n sources)) -> u ∈ map fst sources.
Proof.
  induction sources as [|source sources IH]; intros n u Hu; [exact Hu|].
  cbn [pass_sem] in Hu.
  pose proof (item_sem_fetched e dest_dir n source) as Hitem.
  destruct (item_sem e dest_dir n source) as [[exn|r] p1]; simpl in Hu, Hitem.
  - rewrite Hitem in Hu. apply list_elem_of_singleton in Hu as ->. simpl. left.
  - specialize (IH (S n) u).
    destruct (pass_sem e dest_dir (S n) sources) as [[exn|rs] p2]; simpl in Hu, IH;
      rewrite fetched_app, Hitem in Hu; apply elem_of_cons in Hu as [->|Hu];
      simpl; try left; right; auto.
Qed.

Lemma elem_of_map_url (rs : list DL) (u : string) :
  u ∈ map fst (map source_of rs) -> exists r, r ∈ rs /\ url r = u.
Proof.
  rewrite map_map. intros Hu. apply list_elem_of_In, in_map_iff in Hu as (r & Hr & Hin).
  exists r. split; [now apply list_elem_of_In|exact Hr].
Qed.

Lemma url_elem_of_sources (rs : list DL) (r : DL) :
  r ∈ rs -> url r ∈ map fst (map source_of rs).
Proof.
  intros Hr. rewrite map_map. apply list_elem_of_In, in_map_iff.
  exists r. split; [reflexivity|now apply list_elem_of_In].
Qed.

Lemma retries_left_succ (attempt : Z) (fuel : nat) :
  (retries_left attempt <= S fuel)%nat -> (retries_left (attempt + 1) <= fuel)%nat.
Proof. unfold retries_left. lia. Qed.

Lemma retries_left_zero (attempt : Z) :
  (retries_left attempt <= 0)%nat -> bool_decide (attempt <= 3) = false.
Proof. unfold retries_left. intros H. apply bool_decide_eq_false. lia. Qed.

Lemma steps_finish (results fails successes : list DL) (w w1 : World)
    (tr : list Event) (k : nat) :
  steps w w1 tr k ->
  steps w (snd (finish results fails successes w1))
    (tr ++ [EvSummary (len results) (len successes) (len fails)]) (k + 0).
Proof.
  intros H. eapply steps_trans; [exact H|]. apply steps_log_event. exact I.
Qed.

(** The part of [download_rec_run] that does not depend on the fuel:
    the end of a call that does not retry. *)
Lemma download_no_retry (sources : list DownloadTask) (w w1 w2 : World)
    (tr1 tr2 : list Event) (k : nat) (rs : list DL) :
  steps w w1 tr1 k -> steps w1 w2 tr2 0 -> fetched (protocol tr2) = [] ->
  map source_of rs = sources ->
  fetched (protocol tr1) = map fst sources ->
  exists out w' tr k',
    finish rs (filter (fun r => ~ saved r) rs) (filter saved rs) w2 = (out, w') /\
    steps w w' tr k' /\
    out <> OutOfFuel /\
    (forall u, u ∈ fetched (protocol tr) -> u ∈ map fst sources) /\
    (forall fails successes,
        out = Return (fails, successes) ->
        (forall r, r ∈ fails \/ r ∈ successes -> url r ∈ map fst sources) /\
        (exists rest, fetched (protocol tr) = map fst sources ++ rest)).
Proof.
  intros H1 H2 Hquiet Hsrc Hfetched.
  eexists _, _, _, _. split; [reflexivity|].
  split; [apply steps_finish; exact (steps_trans _ _ _ _ _ _ _ H1 H2)|].
  split; [discriminate|].
  assert (Hall : fetched (protocol ((tr1 ++ tr2) ++
                   [EvSummary (len rs) (len (filter saved rs))
                      (len (filter (fun r => ~ saved r) rs))])) = map fst sources).
  { rewrite !protocol_app, !fetched_app, Hquiet, Hfetched. simpl. now rewrite !app_nil_r. }
  rewrite Hall. split; [auto|].
  intros fails successes [= <- <-]. split; [|exists []; now rewrite app_nil_r].
  intros r Hr. rewrite <- Hsrc. apply url_elem_of_sources.
  destruct Hr as [Hr|Hr]; apply list_elem_of_filter in Hr; apply Hr.
Qed.

(** With the fuel [download] gives it, the recursion never runs out of
    fuel; every request is for the url of one of the sources, and so is
    every result; when the call returns, its first requests are those for
    the sources, in order. *)
Lemma download_rec_run (dest_dir : string) (fuel : nat) :
  forall (sources : list DownloadTask) (attempt : Z) (w : World),
    (retries_left attempt <= fuel)%nat ->
    exists out w' tr k,
      download_rec fuel sources dest_dir attempt w = (out, w') /\
      steps w w' tr k /\
      out <> OutOfFuel /\
      (forall u, u ∈ fetched (protocol tr) -> u ∈ map fst sources) /\
      (forall fails successes,
          out = Return (fails, successes) ->
          (forall r, r ∈ fails \/ r ∈ successes -> url r ∈ map fst sources) /\
          (exists rest, fetched (protocol tr) = map fst sources ++ rest)).
Proof.
  induction fuel as [|fuel IH]; intros sources attempt w Hfuel;
    destruct (_download_run sources dest_dir w)
      as (out1 & w1 & tr1 & k1 & Hpass & H1 & Hproto1 & Hout1);
    pose proof (pass_sem_fetched (env w) dest_dir sources (requests w)) as Hfetched;
    rewrite <- Hproto1 in Hfetched;
    (destruct (pass_sem (env w) dest_dir (requests w) sources) as [[exn|rs] p] eqn:Hsem;
     simpl in Hout1;
     [ subst out1; rewrite (download_rec_raise _ _ _ _ _ _ _ Hpass);
       eexists _, _, _, _; split; [reflexivity|]; split; [exact H1|];
       split; [discriminate|]; split; [exact Hfetched|discriminate]
     | destruct Hout1 as [-> ->];
       rewrite (download_rec_step _ _ _ _ _ _ _ Hpass); cbv zeta;
       destruct (pass_sem_sources _ _ _ _ _ _ Hsem) as (Hsrc & Hfp & _);
       simpl in Hproto1; rewrite <- Hproto1 in Hfp ]).
  - (* no fuel: [attempt] is beyond 3 *)
    rewrite (retries_left_zero _ Hfuel), andb_false_r.
    destruct (non_empty _).
    + eapply (download_no_retry sources w w1 _ tr1 _ _ rs H1);
        [apply (steps_log_event (EvGivingUp _)); exact I|reflexivity|assumption|assumption].
    + eapply (download_no_retry sources w w1 _ tr1 _ _ rs H1);
        [apply steps_refl|reflexivity|assumption|assumption].
  - destruct (non_empty _ && bool_decide (attempt <= 3))%bool.
    + (* the retry *)
      assert (Hretry : forall u,
                 u ∈ map fst (map source_of (filter retryable (filter (fun r => ~ saved r) rs)))
                 -> u ∈ map fst sources).
      { intros u Hu. apply elem_of_map_url in Hu as (r & Hr & <-).
        rewrite <- Hsrc. apply url_elem_of_sources.
        apply list_elem_of_filter in Hr as [_ Hr]. apply list_elem_of_filter in Hr. apply Hr. }
      destruct (IH (map source_of (filter retryable (filter (fun r => ~ saved r) rs)))
                  (attempt + 1) w1 (retries_left_succ _ _ Hfuel))
        as (out2 & w2 & tr2 & k2 & Hrec & H2 & Hout2 & Hfetched2 & Hurls2).
      rewrite Hrec. pose proof (steps_trans _ _ _ _ _ _ _ H1 H2) as H12.
      assert (Hf12 : forall u, u ∈ fetched (protocol (tr1 ++ tr2)) -> u ∈ map fst sources).
      { intros u. rewrite protocol_app, fetched_app. intros Hu.
        apply elem_of_app in Hu as [Hu|Hu]; [now apply Hfetched|].
        apply Hretry. now apply Hfetched2. }
      destruct out2 as [[rf rsucc]|exn|]; [| |contradiction].
      * eexists _, _, _, _. split; [reflexivity|].
        split; [apply steps_finish; exact H12|].
        split; [discriminate|]. split.
        -- intros u. rewrite protocol_app, fetched_app. simpl. rewrite app_nil_r.
           apply Hf12.
        -- intros fails successes [= <- <-]. split.
           ++ intros r [Hr|Hr].
              ** rewrite <- Hsrc. apply url_elem_of_sources.
                 apply list_elem_of_filter in Hr as [_ Hr].
                 apply list_elem_of_filter in Hr. apply Hr.
              ** apply elem_of_app in Hr as [Hr|Hr].
                 --- rewrite <- Hsrc. apply url_elem_of_sources.
                     apply list_elem_of_filter in Hr. apply Hr.
                 --- apply Hretry. eapply Hurls2; [reflexivity|]. right. exact Hr.
           ++ exists (fetched (protocol tr2)).
              rewrite !protocol_app, !fetched_app, Hfp. simpl. now rewrite app_nil_r.
      * eexists _, _, _, _. split; [reflexivity|]. split; [exact H12|].
        split; [discriminate|]. split; [exact Hf12|discriminate].
    + destruct (non_empty _).
      * eapply (download_no_retry sources w w1 _ tr1 _ _ rs H1);
          [apply (steps_log_event (EvGivingUp _)); exact I|reflexivity|assumption|assumption].
      * eapply (download_no_retry sources w w1 _ tr1 _ _ rs H1);
        [apply steps_refl|reflexivity|assumption|assumption].
Qed.

(** [download] never runs out of the fuel of the model: it returns or
    it raises an exception of the program. *)
Lemma download_total (sources : list DownloadTask) (dest_dir : string) (attempt : Z)
    (w : World) :
  fst (download sources dest_dir attempt w) <> OutOfFuel.
Proof.
  destruct (download_rec_run dest_dir (retries_left attempt) sources attempt w (le_n _))
    as (out & w' & tr & k & Hrun & _ & Hout & _).
  unfold download. rewrite Hrun. exact Hout.
Qed.

Lemma NoDup_map_eq {A B} (g : A -> B) (l : list A) (x y : A) :
  NoDup (map g l) -> x ∈ l -> y ∈ l -> g x = g y -> x = y.
Proof.
  induction l as [|a l IH]; intros Hnd Hx Hy Hg; [inversion Hx|].
  simpl in Hnd. apply NoDup_cons in Hnd as [Ha Hnd].
  assert (Hmem : forall z, z ∈ l -> g z ∈ map g l).
  { intros z Hz. apply list_elem_of_In, in_map. now apply list_elem_of_In. }
  apply elem_of_cons in Hx as [->|Hx]; apply elem_of_cons in Hy as [->|Hy].
  - reflexivity.
  - exfalso. apply Ha. rewrite Hg. now apply Hmem.
  - exfalso. apply Ha. rewrite <- Hg. now apply Hmem.
  - now apply IH.
Qed.





(** *** A remote side that always fails *)












End DownloadProps.

(** ** Sources *)

Module SourceProps.
Import Source.











End SourceProps.

Module YahooProps.
Import YahooSource.








End YahooProps.

(** * Further properties of the code *)

(** ** [partition] *)

Module PartitionProps.

(** X1: [partition] splits a list in two without losing, adding or
    reordering anything: the elements that fail the predicate first,
    those that pass it second, each in the order of the input. *)
Theorem partition_law :
  forall (A : Type) (pred : A -> Prop) (Hdec : forall x, Decision (pred x)) (l : list A),
    fst (partition pred l) ++ snd (partition pred l) ≡ₚ l /\
    Forall (fun x => ~ pred x) (fst (partition pred l)) /\
    Forall pred (snd (partition pred l)) /\
    fst (partition pred l) `sublist_of` l /\
    snd (partition pred l) `sublist_of` l /\
    (length (fst (partition pred l)) + length (snd (partition pred l)) = length l)%nat.
Proof.
  intros A pred Hdec l. unfold partition. cbn [fst snd].
  assert (Hperm : filter (fun x => ~ pred x) l ++ filter pred l ≡ₚ l).
  { rewrite Permutation_app_comm. apply filter_app_complement. }
  split; [exact Hperm|].
  split; [apply Forall_forall; intros x Hx; apply list_elem_of_filter in Hx; apply Hx|].
  split; [apply Forall_forall; intros x Hx; apply list_elem_of_filter in Hx; apply Hx|].
  split; [apply sublist_filter|]. split; [apply sublist_filter|].
  rewrite <- length_app. now rewrite Hperm.
Qed.

End PartitionProps.

(** ** More on [ExponentialBackoff] *)

Module BackoffMore.
Import ExponentialBackoff BackoffProps.
Local Open Scope R_scope.

Lemma sleeps_app (tr1 tr2 : list Event) : sleeps (tr1 ++ tr2) = sleeps tr1 ++ sleeps tr2.
Proof. apply omap_app. Qed.

Lemma events_since_log3 (w : World) (e1 e2 e3 : Event) :
  events_since w (log_event e3 (log_event e2 (log_event e1 w))) = [e1; e2; e3].
Proof.
  unfold events_since, log_event. simpl. rewrite <- !app_assoc. apply drop_app_length.
Qed.


Lemma events_since_log1 (w : World) (e1 : Event) :
  events_since w (log_event e1 w) = [e1].
Proof. unfold events_since, log_event. simpl. apply drop_app_length. Qed.

(** X2: [wait] never raises, whatever the object. It sleeps exactly
    when [start * count] exceeds 0.01, for that long (the delay is
    linear in [count], and is not capped by [limit]), and then
    multiplies [count] by 0.8705; otherwise it does not sleep and
    leaves the object as it was. [start] and [limit] are never changed. *)
Theorem wait_never_raises :
  forall (self : t) (w : World),
    exists self' w',
      wait self w = (Return self', w') /\
      start self' = start self /\ limit self' = limit self /\
      ((0.01 < start self * count self /\
        sleeps (events_since w w') = [start self * count self] /\
        count self' = count self * 0.8705) \/
       (start self * count self <= 0.01 /\
        sleeps (events_since w w') = [] /\ self' = self)).
Proof.
  intros self w. destruct (Rlt_dec 0.01 (start self * count self)) as [Habove|Hbelow].
  - assert (Hi : wait_interval self = start self * count self).
    { unfold wait_interval. apply Rmax_right. lra. }
    eexists _, _. rewrite wait_above by (rewrite Hi; lra).
    split; [reflexivity|]. split; [reflexivity|]. split; [reflexivity|].
    left. split; [exact Habove|]. rewrite events_since_log3, Hi. split; reflexivity.
  - assert (Hi : wait_interval self = 0.01).
    { unfold wait_interval. apply Rmax_left. lra. }
    eexists _, _. rewrite wait_below by (rewrite Hi; lra).
    split; [reflexivity|]. split; [reflexivity|]. split; [reflexivity|].
    right. split; [lra|]. rewrite events_since_log1. split; reflexivity.
Qed.

(** X3: five consecutive calls of [wait] that all sleep bring a
    non-negative [count] down to half or less, and to no less than
    0.499 of it (the comment in the code: "this will bring count down by
    50% every 5 calls"). *)
Theorem wait_halves_in_five :
  forall (self : t) (w : World),
    0 <= count self ->
    delays_exceed_floor 5 self w ->
    exists self' w',
      wait_times 5 self w = (Return self', w') /\
      count self' <= count self / 2 /\
      0.499 * count self <= count self'.
Proof.
  intros self w Hcount Hpre.
  destruct (wait_times_decays 5 self w Hpre) as (self' & w' & Hrun & Hc & _).
  exists self', w'. split; [exact Hrun|]. rewrite Hc. simpl pow. split; nra.
Qed.

Lemma wait_halves_in_five_witness :
  exists self' w',
    wait_times 5 (mk 4 0.5 64) (fresh_world unreachable) = (Return self', w') /\
    count self' <= 4 / 2.
Proof.
  destruct (wait_halves_in_five (mk 4 0.5 64) (fresh_world unreachable))
    as (self' & w' & Hrun & Hhalf & _).
  - simpl. lra.
  - simpl. repeat (split; [apply wait_interval_above; simpl; lra|];
                   rewrite wait_above by (apply wait_interval_above; simpl; lra); simpl).
    exact I.
  - exists self', w'. split; [exact Hrun|exact Hhalf].
Defined.






End BackoffMore.

(** ** More on one pass *)

Module PassMore.
Import ExponentialBackoff BackoffProps PassProps DownloadProps BackoffMore.

Lemma item_sem_summaries (e : Env) (dest_dir : string) (n : nat) (source : DownloadTask) :
  summaries (snd (item_sem e dest_dir n source)) = [].
Proof.
  destruct source as [item dated_file]. unfold item_sem.
  destruct (net e n item) as [exn|resp]; [reflexivity|].
  destruct (ok resp); simpl.
  - destruct (openable e _); [destruct (iter_error resp)|]; simpl; try reflexivity.
    + change (summaries (map (Write (abspath e (path_join dest_dir dated_file)))
                           (iter_content resp (256 * 1024))) = []).
      apply summaries_writes.
    + change (summaries (map (Write (abspath e (path_join dest_dir dated_file)))
                           (iter_content resp (256 * 1024)) ++ [Call Wait]) = []).
      now rewrite summaries_app, summaries_writes.
  - destruct (status_code resp =? 401)%Z; reflexivity.
Qed.

Lemma pass_sem_prefix (e : Env) (dest_dir : string) (sources : list DownloadTask) :
  forall n : nat,
    fetched (snd (pass_sem e dest_dir n sources)) `prefix_of` map fst sources /\
    summaries (snd (pass_sem e dest_dir n sources)) = [].
Proof.
  induction sources as [|source sources IH]; intros n.
  - split; reflexivity.
  - cbn [pass_sem map].
    pose proof (item_sem_fetched e dest_dir n source) as Hf.
    pose proof (item_sem_summaries e dest_dir n source) as Hs.
    destruct (item_sem e dest_dir n source) as [[exn|r] p1]; simpl in Hf, Hs |- *.
    + rewrite Hf, Hs. split; [|reflexivity]. exists (map fst sources). reflexivity.
    + destruct (IH (S n)) as [Hpre Hsum].
      destruct (pass_sem e dest_dir (S n) sources) as [[exn|rs] p2]; simpl in Hpre, Hsum |- *;
        rewrite fetched_app, summaries_app, Hf, Hs, Hsum;
        (split; [apply (prefix_app [fst source]); exact Hpre|reflexivity]).
Qed.

(** X6: a pass sends its requests in the order of the sources, one for
    each source and none twice, and stops at the first exception: the
    urls requested are a prefix of the urls of the sources, and all of
    them when the pass returns. A pass prints no summary. *)
Theorem pass_requests_in_order :
  forall (sources : list DownloadTask) (dest_dir : string) (w : World),
    exists out w',
      _download sources dest_dir requests_get w = (out, w') /\
      fetched (protocol (events_since w w')) `prefix_of` map fst sources /\
      summaries (protocol (events_since w w')) = [] /\
      (forall results,
          out = Return results ->
          fetched (protocol (events_since w w')) = map fst sources /\
          requests w' = (requests w + length sources)%nat).
Proof.
  intros sources dest_dir w.
  destruct (_download_run sources dest_dir w)
    as (out & w' & tr & k & Hrun & Hsteps & Hproto & Hout).
  exists out, w'. split; [exact Hrun|].
  rewrite (steps_events_since _ _ _ _ Hsteps), Hproto.
  destruct (pass_sem_prefix (env w) dest_dir sources (requests w)) as [Hpre Hsum].
  split; [exact Hpre|]. split; [exact Hsum|].
  intros results ->.
  destruct (pass_sem (env w) dest_dir (requests w) sources) as [[exn|rs] p] eqn:Hsem;
    simpl in Hout; [discriminate|].
  destruct Hout as [_ ->]. destruct Hsteps as (_ & Hreq & _).
  split; [|exact Hreq]. eapply pass_sem_sources. exact Hsem.
Qed.

(** *** The files of a pass *)

Lemma replay_frame (f : string) (p : list Action) :
  forall fs : gmap string string,
    (forall a, a ∈ p -> ~ touches f a) -> replay p fs !! f = fs !! f.
Proof.
  induction p as [|a p IH]; intros fs Hp; [reflexivity|].
  cbn [replay fold_left]. fold (replay p). rewrite IH.
  - assert (Ha : ~ touches f a) by (apply Hp; left).
    destruct a as [|f'|f' b| |]; simpl; try reflexivity.
    + apply lookup_insert_ne. intros ->. apply Ha. left. reflexivity.
    + apply lookup_insert_ne. intros ->. apply Ha. right. eauto.
  - intros a' Ha'. apply Hp. now right.
Qed.

Lemma item_sem_touches (e : Env) (dest_dir : string) (n : nat) (item dated_file : string)
    (f : string) (a : Action) :
  a ∈ snd (item_sem e dest_dir n (item, dated_file)) -> touches f a ->
  f = abspath e (path_join dest_dir dated_file).
Proof.
  unfold item_sem. intros Hin Ht.
  assert (Hw : forall f' (bs : list string) a',
             a' ∈ map (Write f') bs -> touches f a' -> f = f').
  { intros f' bs a' Ha' Hta'. apply list_elem_of_In, in_map_iff in Ha' as (b & <- & _).
    destruct Hta' as [H|[b' H]]; congruence. }
  assert (Hfetch : forall u, ~ touches f (Fetch u)).
  { intros u [H|[b H]]; discriminate. }
  assert (Hcall : forall o, ~ touches f (Call o)).
  { intros o [H|[b H]]; discriminate. }
  destruct (net e n item) as [exn|resp]; simpl in Hin.
  - apply list_elem_of_singleton in Hin as ->. now apply Hfetch in Ht.
  - destruct (ok resp); simpl in Hin.
    + destruct (openable e _); [destruct (iter_error resp)|]; simpl in Hin.
      * apply elem_of_cons in Hin as [->|Hin]; [now apply Hfetch in Ht|].
        apply elem_of_cons in Hin as [->|Hin]; [destruct Ht as [H|[b H]]; congruence|].
        eapply Hw; eassumption.
      * apply elem_of_cons in Hin as [->|Hin]; [now apply Hfetch in Ht|].
        apply elem_of_cons in Hin as [->|Hin]; [destruct Ht as [H|[b H]]; congruence|].
        apply elem_of_app in Hin as [Hin|Hin]; [eapply Hw; eassumption|].
        apply list_elem_of_singleton in Hin as ->. now apply Hcall in Ht.
      * apply list_elem_of_singleton in Hin as ->. now apply Hfetch in Ht.
    + apply elem_of_cons in Hin as [->|Hin]; [now apply Hfetch in Ht|].
      destruct (status_code resp =? 401)%Z; [|inversion Hin].
      apply list_elem_of_singleton in Hin as ->. now apply Hcall in Ht.
Qed.

Lemma pass_sem_touches (e : Env) (dest_dir : string) (sources : list DownloadTask)
    (f : string) :
  forall (n : nat) (a : Action),
    a ∈ snd (pass_sem e dest_dir n sources) -> touches f a ->
    f ∈ targets e dest_dir sources.
Proof.
  induction sources as [|[item dated_file] sources IH]; intros n a Hin Ht.
  - inversion Hin.
  - cbn [pass_sem] in Hin. cbn [targets map snd].
    pose proof (item_sem_touches e dest_dir n item dated_file f) as Hitem.
    destruct (item_sem e dest_dir n (item, dated_file)) as [[exn|r] p1]; simpl in Hin, Hitem.
    + rewrite (Hitem a Hin Ht). left.
    + specialize (IH (S n)).
      destruct (pass_sem e dest_dir (S n) sources) as [[exn|rs] p2]; simpl in Hin, IH;
        (apply elem_of_app in Hin as [Hin|Hin];
         [rewrite (Hitem a Hin Ht); left|right; now apply (IH a)]).
Qed.

(** X7: a pass changes no file but those the sources are saved under:
    a path that is not [abspath(join(dest_dir, dated_file))] for a
    source of the batch holds after the pass what it held before,
    whether the pass returns or raises. *)
Theorem pass_touches_only_targets :
  forall (sources : list DownloadTask) (dest_dir : string) (w : World) (path : string),
    path ∉ targets (env w) dest_dir sources ->
    files (snd (_download sources dest_dir requests_get w)) !! path = files w !! path.
Proof.
  intros sources dest_dir w path Hnot.
  destruct (_download_run sources dest_dir w)
    as (out & w' & tr & k & Hrun & (_ & _ & _ & Hfiles) & Hproto & _).
  rewrite Hrun. cbn [snd]. rewrite Hfiles, Hproto. apply replay_frame.
  intros a Ha Ht. apply Hnot. eapply pass_sem_touches; eassumption.
Qed.

Lemma pass_touches_only_targets_witness :
  files (snd (_download [eq040116] "out" requests_get
                (fresh_world (always (response 200 ["PK"]))))) !! "out/eq050116_csv.zip"
  = None.
Proof.
  rewrite (pass_touches_only_targets [eq040116] "out"
             (fresh_world (always (response 200 ["PK"]))) "out/eq050116_csv.zip").
  - reflexivity.
  - intros Hin. apply list_elem_of_singleton in Hin. discriminate.
Defined.

Lemma item_sem_saved_content (e : Env) (dest_dir : string) (n : nat)
    (item dated_file : string) (r : DL) (p : list Action) (f : string) :
  item_sem e dest_dir n (item, dated_file) = (inr r, p) ->
  lfile r = Some f ->
  exists resp,
    net e n item = inr resp /\ ok resp = true /\
    f = abspath e (path_join dest_dir dated_file) /\
    forall fs : gmap string string,
      replay p fs !! f = Some (joined (iter_content resp (256 * 1024))).
Proof.
  intros Hsem Hf. apply item_sem_result in Hsem as (resp & Hnet & -> & ->).
  exists resp. split; [exact Hnet|]. simpl in Hf.
  destruct (ok resp); [|discriminate]. injection Hf as <-.
  split; [reflexivity|]. split; [reflexivity|]. intros fs.
  change (Fetch item :: Open ?f :: ?ws ++ [Call Wait])
    with ([Fetch item; Open f] ++ ws ++ [Call Wait]).
  rewrite !replay_app. cbn [replay fold_left replay_action].
  fold (replay (map (Write (abspath e (path_join dest_dir dated_file)))
                  (iter_content resp (256 * 1024)))).
  erewrite replay_writes by apply lookup_insert_eq. reflexivity.
Qed.

Lemma pass_sem_saved_content (e : Env) (dest_dir : string) (sources : list DownloadTask) :
  forall (n : nat) (rs : list DL) (p : list Action) (fs : gmap string string),
    pass_sem e dest_dir n sources = (inr rs, p) ->
    NoDup (targets e dest_dir sources) ->
    forall (k : nat) (r : DL) (f : string),
      rs !! k = Some r -> lfile r = Some f ->
      exists item dated_file resp,
        sources !! k = Some (item, dated_file) /\
        net e (n + k) item = inr resp /\
        replay p fs !! f = Some (joined (iter_content resp (256 * 1024))).
Proof.
  induction sources as [|[item dated_file] sources IH]; intros n rs p fs Hsem Hnd k r f Hk Hf.
  - injection Hsem as <- <-. discriminate.
  - pose proof Hsem as Hsem0.
    apply pass_sem_cons in Hsem as (r0 & p1 & rs' & p2 & Hitem & Hrest & -> & ->).
    cbn [targets map snd] in Hnd. apply NoDup_cons in Hnd as [Hfresh Hnd].
    rewrite replay_app. destruct k as [|k]; simpl in Hk.
    + injection Hk as ->.
      destruct (item_sem_saved_content _ _ _ _ _ _ _ _ Hitem Hf)
        as (resp & Hnet & _ & -> & Hcontent).
      exists item, dated_file, resp. rewrite Nat.add_0_r.
      split; [reflexivity|]. split; [exact Hnet|].
      rewrite replay_frame; [apply Hcontent|].
      intros a Ha Ht. apply Hfresh.
      apply (pass_sem_touches e dest_dir sources _ (S n) a); [|exact Ht].
      rewrite Hrest. exact Ha.
    + destruct (IH (S n) rs' p2 (replay p1 fs) Hrest Hnd k r f Hk Hf)
        as (item' & df' & resp & Hsrc & Hnet & Hcontent).
      exists item', df', resp. rewrite <- Nat.add_succ_comm. auto.
Qed.

(** X8: when the sources of a pass are saved under pairwise distinct
    paths and the pass returns, every file a result names holds, after
    the pass, exactly the body of the response to that source: the
    blocks in order, and nothing of what the file held before. *)
Theorem pass_saves_bodies :
  forall (sources : list DownloadTask) (dest_dir : string) (w w' : World)
         (results : list DL),
    NoDup (targets (env w) dest_dir sources) ->
    _download sources dest_dir requests_get w = (Return results, w') ->
    forall (k : nat) (r : DL) (f : string),
      results !! k = Some r -> lfile r = Some f ->
      exists item dated_file resp,
        sources !! k = Some (item, dated_file) /\
        net (env w) (requests w + k) item = inr resp /\
        files w' !! f = Some (joined (iter_content resp (256 * 1024))).
Proof.
  intros sources dest_dir w w' results Hnd Hrun k r f Hk Hf.
  destruct (_download_returns _ _ _ _ _ Hrun) as (Hfst & Hproto & (_ & _ & _ & Hfiles)).
  destruct (pass_sem (env w) dest_dir (requests w) sources) as [res p] eqn:Hsem.
  simpl in Hfst, Hproto. subst res. rewrite Hfiles, Hproto.
  eapply pass_sem_saved_content; eassumption.
Qed.

Lemma pass_saves_bodies_witness :
  exists w',
    fst (_download [eq040116; eq050116] "out" requests_get
           (fresh_world (scripted [response 200 ["PK"; "one"]; response 200 ["PK"; "two"]])))
    = Return [mkDL (fst eq040116) (snd eq040116) (Some "out/eq040116_csv.zip") 200;
              mkDL (fst eq050116) (snd eq050116) (Some "out/eq050116_csv.zip") 200] /\
    snd (_download [eq040116; eq050116] "out" requests_get
           (fresh_world (scripted [response 200 ["PK"; "one"]; response 200 ["PK"; "two"]])))
    = w' /\
    files w' !! "out/eq050116_csv.zip" = Some "PKtwo".
Proof.
  set (w0 := fresh_world (scripted [response 200 ["PK"; "one"]; response 200 ["PK"; "two"]])).
  destruct (_download_run [eq040116; eq050116] "out" w0)
    as (out & w' & tr & k & Hrun & _ & _ & Hout).
  vm_compute in Hout. destruct Hout as [-> _].
  exists w'. rewrite Hrun. split; [reflexivity|]. split; [reflexivity|].
  assert (Hnd : NoDup (targets (env w0) "out" [eq040116; eq050116])).
  { apply NoDup_cons. split; [|apply NoDup_singleton].
    intros Hin. apply list_elem_of_singleton in Hin. discriminate. }
  destruct (pass_saves_bodies [eq040116; eq050116] "out" w0 w' _ Hnd Hrun 1%nat
              (mkDL (fst eq050116) (snd eq050116) (Some "out/eq050116_csv.zip") 200)
              "out/eq050116_csv.zip" eq_refl eq_refl)
    as (item & dated_file & resp & Hsrc & Hnet & Hfile).
  injection Hsrc as <- <-. injection Hnet as <-. exact Hfile.
Defined.

(** *** Sleeping *)

Lemma sleeps_writes (filename : string) (blocks : list string) :
  sleeps (map (EvWrite filename) blocks) = [].
Proof. induction blocks as [|b bs IH]; [reflexivity|exact IH]. Qed.

Lemma wait_fresh (self : t) (w : World) :
  count self = 0%R ->
  wait self w = (Return self, log_event (EvWait (wait_interval self)) w).
Proof.
  intros Hc. apply wait_below. unfold wait_interval. rewrite Hc, Rmult_0_r.
  rewrite Rmax_left; lra.
Qed.

(** One turn of the loop on an object that has not backed off, when the
    answer is no failure with status 401: nothing is slept and the
    object stays as it is. *)
Lemma _download_item_no_sleep (dest_dir : string) (i : Z) (source : DownloadTask)
    (exp_back : t) (w : World) :
  count exp_back = 0%R ->
  (forall resp,
      net (env w) (requests w) (fst source) = inr resp ->
      ok resp = false -> status_code resp <> 401) ->
  exists out w' tr,
    _download_item requests_get dest_dir i source exp_back w = (out, w') /\
    env w' = env w /\ requests w' = S (requests w) /\
    trace w' = trace w ++ tr /\ sleeps tr = [] /\
    forall r exp_back', out = Return (r, exp_back') -> exp_back' = exp_back.
Proof.
  intros Hc Hno. destruct source as [item dated_file]. unfold _download_item.
  rewrite run_emit_bind, run_bind.
  pose proof (steps_log_event (EvProgress i dated_file) w I) as H0.
  destruct (requests_get_run item (log_event (EvProgress i dated_file) w))
    as (w1 & Hget & H1).
  rewrite Hget. simpl env in *. simpl requests in *.
  pose proof (steps_trans _ _ _ _ _ _ _ H0 H1) as H01. clear H0 H1 Hget.
  simpl fst in Hno.
  destruct (net (env w) (requests w) item) as [exn|resp] eqn:Hnet.
  - destruct H01 as (He & Hr & Ht & _).
    eexists _, _, _. split; [reflexivity|]. split; [exact He|].
    split; [rewrite Hr; lia|]. split; [exact Ht|]. split; [reflexivity|discriminate].
  - destruct (ok resp) eqn:Hok; cbn [negb].
    + rewrite run_bind. unfold path_abspath.
      assert (Henv : env w1 = env w) by apply H01. rewrite Henv.
      set (filename := abspath (env w) (path_join dest_dir dated_file)).
      rewrite run_bind. unfold save_body. rewrite run_bind.
      destruct (openable (env w) filename) eqn:Hopen.
      * destruct (open_wb_run filename w1) as (w2 & Hrun2 & H2);
          [rewrite Henv; exact Hopen|].
        rewrite Hrun2, run_bind.
        destruct (write_blocks_run filename (iter_content resp (256 * 1024)) w2)
          as (w3 & Hrun3 & H3).
        rewrite Hrun3.
        pose proof (steps_trans _ _ _ _ _ _ _ H01 (steps_trans _ _ _ _ _ _ _ H2 H3)) as H03.
        destruct H03 as (He & Hr & Ht & _).
        assert (Hsl : sleeps (([EvProgress i dated_file] ++ [EvGet item (inr resp)]) ++
                               [EvOpen filename] ++
                               map (EvWrite filename) (iter_content resp (256 * 1024))) = []).
        { rewrite !sleeps_app, sleeps_writes. reflexivity. }
        destruct (iter_error resp) as [exn|].
        -- eexists _, _, _. split; [reflexivity|]. split; [exact He|].
           split; [rewrite Hr; lia|]. split; [exact Ht|]. split; [exact Hsl|discriminate].
        -- rewrite run_ret, run_bind, (wait_fresh exp_back w3 Hc).
           eexists _, _, (_ ++ [EvWait (wait_interval exp_back)]).
           split; [reflexivity|]. split; [exact He|].
           split; [simpl; rewrite Hr; lia|].
           split; [simpl; rewrite Ht; now rewrite <- app_assoc|].
           split; [rewrite sleeps_app, Hsl; reflexivity|].
           intros r eb' [= _ <-]. reflexivity.
      * unfold open_wb. rewrite Henv, Hopen. destruct H01 as (He & Hr & Ht & _).
        eexists _, _, _. split; [reflexivity|]. split; [exact He|].
        split; [rewrite Hr; lia|]. split; [exact Ht|]. split; [reflexivity|discriminate].
    + rewrite run_emit_bind, run_bind.
      destruct (Z.eqb_spec (status_code resp) 401) as [Heq|Hne];
        [exfalso; now apply (Hno resp)|].
      rewrite run_ret. destruct H01 as (He & Hr & Ht & _).
      eexists _, _, (_ ++ [EvWarn item (status_code resp)]).
      split; [reflexivity|]. split; [exact He|].
      split; [simpl; rewrite Hr; lia|].
      split; [simpl; rewrite Ht; now rewrite <- app_assoc|].
      split; [rewrite sleeps_app; reflexivity|].
      intros r eb' [= _ <-]. reflexivity.
Qed.

Lemma _download_loop_no_sleep (dest_dir : string) (sources : list DownloadTask) :
  forall (i : Z) (exp_back : t) (results : list DL) (w : World),
    count exp_back = 0%R ->
    (forall n item resp,
        net (env w) n item = inr resp -> ok resp = false -> status_code resp <> 401) ->
    exists out w' tr,
      _download_loop requests_get dest_dir i sources exp_back results w = (out, w') /\
      trace w' = trace w ++ tr /\ sleeps tr = [].
Proof.
  induction sources as [|source sources IH]; intros i exp_back results w Hc Hno.
  - exists (Return results), w, []. rewrite app_nil_r. auto.
  - cbn [_download_loop]. rewrite run_bind.
    destruct (_download_item_no_sleep dest_dir i source exp_back w Hc)
      as (out1 & w1 & tr1 & Hrun1 & He1 & _ & Ht1 & Hs1 & Hsame).
    { intros resp. apply Hno. }
    rewrite Hrun1. destruct out1 as [[r eb1]|exn|].
    + rewrite (Hsame r eb1 eq_refl).
      destruct (IH (i + 1) exp_back (results ++ [r]) w1 Hc)
        as (out2 & w2 & tr2 & Hrun2 & Ht2 & Hs2).
      { rewrite He1. exact Hno. }
      exists out2, w2, (tr1 ++ tr2). split; [exact Hrun2|].
      split; [rewrite Ht2, Ht1; now rewrite app_assoc|].
      rewrite sleeps_app, Hs1, Hs2. reflexivity.
    + eexists _, _, _. split; [reflexivity|]. split; [exact Ht1|exact Hs1].
    + eexists _, _, _. split; [reflexivity|]. split; [exact Ht1|exact Hs1].
Qed.

(** X9: a pass in which no request fails with status 401 never sleeps:
    its backoff object starts at [count = 0], where [wait] computes the
    floor delay and skips the sleep, and only [backoff] raises [count]. *)
Theorem pass_without_401_never_sleeps :
  forall (sources : list DownloadTask) (dest_dir : string) (w : World),
    (forall n item resp,
        net (env w) n item = inr resp -> ok resp = false -> status_code resp <> 401) ->
    sleeps (events_since w (snd (_download sources dest_dir requests_get w))) = [].
Proof.
  intros sources dest_dir w Hno.
  destruct (_download_loop_no_sleep dest_dir sources 0 (init 0.5 64) [] w eq_refl Hno)
    as (out & w' & tr & Hrun & Ht & Hs).
  unfold _download. rewrite Hrun. cbn [snd].
  unfold events_since. rewrite Ht, drop_app_length. exact Hs.
Qed.

Lemma pass_without_401_never_sleeps_witness :
  sleeps (events_since (fresh_world (scripted [response 200 ["PK"]; response 404 []]))
            (snd (_download [eq040116; eq050116; eq060116] "out" requests_get
                    (fresh_world (scripted [response 200 ["PK"]; response 404 []])))))
  = [].
Proof.
  apply pass_without_401_never_sleeps.
  intros n item resp Hnet Hok. unfold fresh_world, scripted in Hnet. simpl in Hnet.
  destruct n as [|[|n]]; simpl in Hnet; try discriminate.
  - injection Hnet as <-. discriminate.
  - injection Hnet as <-. discriminate.
Defined.

End PassMore.

(** ** More on [download] *)

Module DownloadMore.
Import ExponentialBackoff BackoffProps PassProps DownloadProps BackoffMore PassMore.

(** A returning call of [download], taken apart: its pass returned, and
    either the call ended there or it retried the failures whose status
    is not 404 and merged what the retry returned. *)
Lemma download_rec_inv (fuel : nat) (sources : list DownloadTask) (dest_dir : string)
    (attempt : Z) (w w' : World) (fails successes : list DL) :
  download_rec fuel sources dest_dir attempt w = (Return (fails, successes), w') ->
  exists results w1,
    _download sources dest_dir requests_get w = (Return results, w1) /\
    ((fails = filter (fun r => ~ saved r) results /\
      successes = filter saved results /\
      files w' = files w1 /\ requests w' = requests w1 /\ env w' = env w1) \/
     (exists fuel' retry_fail retry_success w2,
         fuel = S fuel' /\
         download_rec fuel'
           (map source_of (filter retryable (filter (fun r => ~ saved r) results)))
           dest_dir (attempt + 1) w1 = (Return (retry_fail, retry_success), w2) /\
         fails = filter (fun f => url f ∉ (list_to_set (map url retry_success) : gset string))
                   (filter (fun r => ~ saved r) results) /\
         successes = filter saved results ++ retry_success /\
         files w' = files w2 /\ requests w' = requests w2 /\ env w' = env w2)).
Proof.
  intros Hrun.
  destruct (_download_run sources dest_dir w) as (out1 & w1 & tr1 & k1 & Hpass & _ & _ & Hout1).
  destruct (fst (pass_sem (env w) dest_dir (requests w) sources)) as [exn|rs].
  - subst out1. rewrite (download_rec_raise _ _ _ _ _ _ _ Hpass) in Hrun. discriminate.
  - destruct Hout1 as [-> _]. exists rs, w1. split; [exact Hpass|].
    rewrite (download_rec_step _ _ _ _ _ _ _ Hpass) in Hrun. cbv zeta in Hrun.
    destruct (non_empty _ && bool_decide (attempt <= 3))%bool.
    + right. destruct fuel as [|fuel]; [discriminate|].
      destruct (download_rec fuel _ dest_dir (attempt + 1) w1) as [[[rf rsucc]|exn|] w2] eqn:Hrec;
        try discriminate.
      injection Hrun as <- <- <-. exists fuel, rf, rsucc, w2. auto 10.
    + left. destruct (non_empty _); injection Hrun as <- <- <-; auto.
Qed.

(** The results of a pass are those of its sources, in order. *)
Lemma pass_results (sources : list DownloadTask) (dest_dir : string) (w w1 : World)
    (results : list DL) :
  _download sources dest_dir requests_get w = (Return results, w1) ->
  env w1 = env w /\
  requests w1 = (requests w + length sources)%nat /\
  map source_of results = sources /\
  forall r, r ∈ results ->
    exists k resp,
      sources !! k = Some (source_of r) /\
      net (env w) (requests w + k) (url r) = inr resp /\
      status r = status_code resp /\
      lfile r = if ok resp
                then Some (abspath (env w) (path_join dest_dir (rfile r))) else None.
Proof.
  intros Hpass.
  destruct (_download_returns _ _ _ _ _ Hpass) as (Hfst & _ & (Henv & Hreq & _)).
  destruct (pass_sem (env w) dest_dir (requests w) sources) as [res p] eqn:Hsem.
  simpl in Hfst. subst res.
  destruct (pass_sem_sources _ _ _ _ _ _ Hsem) as (Hsrc & _).
  destruct (pass_sem_lookup _ _ _ _ _ _ Hsem) as (_ & Hlook).
  split; [exact Henv|]. split; [exact Hreq|]. split; [exact Hsrc|].
  intros r Hr. apply list_elem_of_lookup in Hr as [k Hk].
  destruct (Hlook k r Hk) as (item & dated_file & resp & Hs & Hnet & ->).
  exists k, resp. simpl. unfold source_of. simpl. auto.
Qed.

Lemma source_of_elem_of (rs : list DL) (r : DL) :
  r ∈ rs -> source_of r ∈ map source_of rs.
Proof. intros Hr. apply list_elem_of_fmap. exists r. auto. Qed.

Lemma retry_batch_subseteq (results : list DL) (source : DownloadTask) :
  source ∈ map source_of (filter retryable (filter (fun r => ~ saved r) results)) ->
  source ∈ map source_of results.
Proof.
  intros Hs. apply list_elem_of_fmap in Hs as (r & -> & Hr).
  apply list_elem_of_filter in Hr as [_ Hr]. apply list_elem_of_filter in Hr as [_ Hr].
  now apply source_of_elem_of.
Qed.

(** The results of a pass, by what became of them. *)
Lemma pass_classified (sources : list DownloadTask) (dest_dir : string) (w w1 : World)
    (results : list DL) :
  _download sources dest_dir requests_get w = (Return results, w1) ->
  (forall r, r ∈ filter saved results ->
     source_of r ∈ sources /\
     lfile r = Some (abspath (env w) (path_join dest_dir (rfile r))) /\
     exists k resp,
       sources !! k = Some (source_of r) /\
       net (env w) (requests w + k) (url r) = inr resp /\
       ok resp = true /\ status r = status_code resp) /\
  (forall r, r ∈ filter (fun r => ~ saved r) results ->
     source_of r ∈ sources /\
     lfile r = None /\
     exists k resp,
       sources !! k = Some (source_of r) /\
       net (env w) (requests w + k) (url r) = inr resp /\
       ok resp = false /\ status r = status_code resp).
Proof.
  intros Hpass. destruct (pass_results _ _ _ _ _ Hpass) as (_ & _ & Hsrc & Hres).
  split; intros r Hr; apply list_elem_of_filter in Hr as [Hsaved Hr];
    (split; [rewrite <- Hsrc; now apply source_of_elem_of|]);
    destruct (Hres r Hr) as (k & resp & Hk & Hnet & Hst & Hl);
    destruct (ok resp) eqn:Hok.
  - split; [exact Hl|]. exists k, resp. auto.
  - now destruct Hsaved.
  - exfalso. apply Hsaved. unfold saved. now rewrite Hl.
  - split; [exact Hl|]. exists k, resp. auto.
Qed.

Lemma download_rec_classified (dest_dir : string) (fuel : nat) :
  forall (sources : list DownloadTask) (attempt : Z) (w w' : World)
         (fails successes : list DL),
    download_rec fuel sources dest_dir attempt w = (Return (fails, successes), w') ->
    env w' = env w /\
    (forall r, r ∈ successes ->
       source_of r ∈ sources /\
       lfile r = Some (abspath (env w) (path_join dest_dir (rfile r))) /\
       exists n resp,
         net (env w) n (url r) = inr resp /\ ok resp = true /\
         status r = status_code resp) /\
    (forall r, r ∈ fails ->
       source_of r ∈ sources /\
       lfile r = None /\
       exists k resp,
         sources !! k = Some (source_of r) /\
         net (env w) (requests w + k) (url r) = inr resp /\
         ok resp = false /\ status r = status_code resp).
Proof.
  induction fuel as [|fuel IH]; intros sources attempt w w' fails successes Hrun;
    destruct (download_rec_inv _ _ _ _ _ _ _ _ Hrun) as (results & w1 & Hpass & Hcase);
    destruct (pass_results _ _ _ _ _ Hpass) as (Henv1 & _ & Hsrc & _);
    destruct (pass_classified _ _ _ _ _ Hpass) as (Hsucc1 & Hfail1);
    (destruct Hcase as [(-> & -> & _ & _ & Henv)
                       |(fuel' & rf & rsucc & w2 & Hfuel & Hrec & -> & -> & _ & _ & Henv)];
     [split; [congruence|]; split; [|exact Hfail1];
      intros r Hr; destruct (Hsucc1 r Hr) as (? & ? & k & resp & _ & ? & ? & ?); eauto 10|]).
  - discriminate.
  - injection Hfuel as <-.
    destruct (IH _ _ _ _ _ _ Hrec) as (Henv2 & Hsucc2 & _).
    split; [congruence|]. split.
    + intros r Hr. apply elem_of_app in Hr as [Hr|Hr].
      * destruct (Hsucc1 r Hr) as (? & ? & k & resp & _ & ? & ? & ?); eauto 10.
      * destruct (Hsucc2 r Hr) as (Hin & Hl & Hresp). rewrite Henv1 in Hl, Hresp.
        split; [|auto]. rewrite <- Hsrc. now apply retry_batch_subseteq.
    + intros r Hr. apply list_elem_of_filter in Hr as [_ Hr]. now apply Hfail1.
Qed.

(** X10: what [download] returns is sorted by outcome. Every success
    names the file it was saved to, which is the path of its source
    under the destination directory, and carries the status of a
    successful response to its url. Every failure has no file and
    carries the status of the response of the first pass, also when
    later passes asked for the url again and failed with another
    status. Both are results for sources of the call. *)
Theorem download_results_classified :
  forall (sources : list DownloadTask) (dest_dir : string) (attempt : Z) (w w' : World)
         (fails successes : list DL),
    download sources dest_dir attempt w = (Return (fails, successes), w') ->
    (forall r, r ∈ successes ->
       source_of r ∈ sources /\
       lfile r = Some (abspath (env w) (path_join dest_dir (rfile r))) /\
       exists n resp,
         net (env w) n (url r) = inr resp /\ ok resp = true /\
         status r = status_code resp) /\
    (forall r, r ∈ fails ->
       source_of r ∈ sources /\
       lfile r = None /\
       exists k resp,
         sources !! k = Some (source_of r) /\
         net (env w) (requests w + k) (url r) = inr resp /\
         ok resp = false /\ status r = status_code resp).
Proof.
  intros sources dest_dir attempt w w' fails successes Hrun.
  now destruct (download_rec_classified _ _ _ _ _ _ _ _ Hrun) as (_ & H).
Qed.

(** A run with a retry: of three days, the first two fail in the first
    pass; in the second pass the first is saved and the second is not
    found. *)
Lemma example_retry :
  exists w',
    download [eq040116; eq050116; eq060116] "out" 1
      (fresh_world (scripted [response 500 []; response 503 []; response 200 ["PK"; "6"];
                              response 200 ["PK"; "4"]; response 404 []]))
    = (Return ([mkDL (fst eq050116) (snd eq050116) None 503],
               [mkDL (fst eq060116) (snd eq060116) (Some "out/eq060116_csv.zip") 200;
                mkDL (fst eq040116) (snd eq040116) (Some "out/eq040116_csv.zip") 200]), w').
Proof.
  set (w0 := fresh_world _).
  destruct (_download_run [eq040116; eq050116; eq060116] "out" w0)
    as (out1 & w1 & tr1 & k1 & Hpass1 & (Henv1 & Hreq1 & _) & _ & Hout1).
  vm_compute in Hout1. destruct Hout1 as [-> ->].
  destruct (_download_run [eq040116; eq050116] "out" w1)
    as (out2 & w2 & tr2 & k2 & Hpass2 & _ & _ & Hout2).
  rewrite Henv1, Hreq1 in Hout2. vm_compute in Hout2. destruct Hout2 as [-> _].
  unfold download. rewrite (download_rec_step _ _ _ _ _ _ _ Hpass1).
  change (retries_left 1) with 3%nat. cbv zeta.
  change (filter retryable (filter (fun r => ~ saved r)
            [mkDL (fst eq040116) (snd eq040116) None 500;
             mkDL (fst eq050116) (snd eq050116) None 503;
             mkDL (fst eq060116) (snd eq060116) (Some "out/eq060116_csv.zip") 200]))
    with [mkDL (fst eq040116) (snd eq040116) None 500;
          mkDL (fst eq050116) (snd eq050116) None 503].
  change (non_empty [_; _] && bool_decide (1 <= 3))%bool with true. cbv iota.
  change (map source_of [mkDL (fst eq040116) (snd eq040116) None 500;
                         mkDL (fst eq050116) (snd eq050116) None 503])
    with [eq040116; eq050116].
  rewrite (download_rec_step _ _ _ _ _ _ _ Hpass2). cbv zeta.
  change (filter retryable (filter (fun r => ~ saved r)
            [mkDL (fst eq040116) (snd eq040116) (Some "out/eq040116_csv.zip") 200;
             mkDL (fst eq050116) (snd eq050116) None 404]))
    with (@nil DL).
  cbn [non_empty andb]. unfold finish. eexists. f_equal.
Qed.

Lemma download_results_classified_witness :
  exists w',
    download [eq040116; eq050116; eq060116] "out" 1
      (fresh_world (scripted [response 500 []; response 503 []; response 200 ["PK"; "6"];
                              response 200 ["PK"; "4"]; response 404 []]))
    = (Return ([mkDL (fst eq050116) (snd eq050116) None 503],
               [mkDL (fst eq060116) (snd eq060116) (Some "out/eq060116_csv.zip") 200;
                mkDL (fst eq040116) (snd eq040116) (Some "out/eq040116_csv.zip") 200]), w') /\
    exists k resp,
      [eq040116; eq050116; eq060116] !! k = Some eq050116 /\
      scripted [response 500 []; response 503 []; response 200 ["PK"; "6"];
                response 200 ["PK"; "4"]; response 404 []] (0 + k)%nat (fst eq050116)
      = inr resp /\
      ok resp = false /\ 503 = status_code resp.
Proof.
  destruct example_retry as (w' & Hrun). exists w'. split; [exact Hrun|].
  destruct (download_results_classified _ _ _ _ _ _ _ Hrun) as (_ & Hfails).
  destruct (Hfails (mkDL (fst eq050116) (snd eq050116) None 503)) as (_ & _ & H).
  - left.
  - exact H.
Defined.

(** *** No source is lost *)

Lemma download_rec_covers (dest_dir : string) (fuel : nat) :
  forall (sources : list DownloadTask) (attempt : Z) (w w' : World)
         (fails successes : list DL),
    download_rec fuel sources dest_dir attempt w = (Return (fails, successes), w') ->
    forall source, source ∈ sources ->
      (exists r, r ∈ fails /\ source_of r = source) \/
      (exists r, r ∈ successes /\ url r = fst source).
Proof.
  intros sources attempt w w' fails successes Hrun source Hin.
  destruct (download_rec_inv _ _ _ _ _ _ _ _ Hrun) as (results & w1 & Hpass & Hcase).
  destruct (pass_results _ _ _ _ _ Hpass) as (_ & _ & Hsrc & _).
  rewrite <- Hsrc in Hin. apply list_elem_of_fmap in Hin as (r & -> & Hr).
  destruct (decide (saved r)) as [Hsaved|Hns].
  - right. exists r. split; [|reflexivity].
    assert (Hr1 : r ∈ filter saved results) by now apply list_elem_of_filter.
    destruct Hcase as [(_ & -> & _)|(? & ? & ? & ? & _ & _ & _ & -> & _)];
      [exact Hr1|apply elem_of_app; now left].
  - assert (Hr1 : r ∈ filter (fun r => ~ saved r) results) by now apply list_elem_of_filter.
    destruct Hcase as [(-> & _)|(? & rf & rsucc & ? & _ & _ & -> & -> & _)];
      [left; eauto|].
    destruct (decide (url r ∈ (list_to_set (map url rsucc) : gset string))) as [Hu|Hu].
    + right. apply elem_of_list_to_set, list_elem_of_fmap in Hu as (s & Hs & Hin).
      exists s. split; [apply elem_of_app; now right|simpl; congruence].
    + left. exists r. split; [|reflexivity]. now apply list_elem_of_filter.
Qed.

(** X11: [download] accounts for every source it was given: when it
    returns, each source is among the failures, or its url is the url of
    a success. A source is removed from the failures only because a
    retry saved its url. *)
Theorem download_covers_sources :
  forall (sources : list DownloadTask) (dest_dir : string) (attempt : Z) (w w' : World)
         (fails successes : list DL) (source : DownloadTask),
    download sources dest_dir attempt w = (Return (fails, successes), w') ->
    source ∈ sources ->
    (exists r, r ∈ fails /\ source_of r = source) \/
    (exists r, r ∈ successes /\ url r = fst source).
Proof.
  intros sources dest_dir attempt w w' fails successes source Hrun Hin.
  exact (download_rec_covers _ _ _ _ _ _ _ _ Hrun source Hin).
Qed.

Lemma download_covers_sources_witness :
  (exists r, r ∈ [mkDL (fst eq050116) (snd eq050116) None 503] /\ source_of r = eq040116) \/
  (exists r,
      r ∈ [mkDL (fst eq060116) (snd eq060116) (Some "out/eq060116_csv.zip") 200;
           mkDL (fst eq040116) (snd eq040116) (Some "out/eq040116_csv.zip") 200] /\
      url r = fst eq040116).
Proof.
  destruct example_retry as (w' & Hrun).
  apply (download_covers_sources _ _ _ _ _ _ _ eq040116 Hrun). left.
Defined.

(** *** Batches with pairwise distinct urls *)

Lemma NoDup_fst {A B} (l : list (A * B)) : NoDup (map fst l) -> NoDup l.
Proof.
  induction l as [|x l IH]; intros Hnd; [constructor|].
  simpl in Hnd. apply NoDup_cons in Hnd as [Hx Hnd]. apply NoDup_cons.
  split; [|auto]. intros Hin. apply Hx. apply list_elem_of_fmap. eauto.
Qed.

Lemma source_of_url (rs : list DL) : map fst (map source_of rs) = map url rs.
Proof. rewrite map_map. reflexivity. Qed.

Lemma sublist_map {A B} (g : A -> B) (l1 l2 : list A) :
  l1 `sublist_of` l2 -> map g l1 `sublist_of` map g l2.
Proof. intros H. now apply fmap_sublist. Qed.

Lemma download_rec_distinct (dest_dir : string) (fuel : nat) :
  forall (sources : list DownloadTask) (attempt : Z) (w w' : World)
         (fails successes : list DL),
    NoDup (map fst sources) ->
    download_rec fuel sources dest_dir attempt w = (Return (fails, successes), w') ->
    map source_of fails ++ map source_of successes ≡ₚ sources.
Proof.
  induction fuel as [|fuel IH]; intros sources attempt w w' fails successes Hnd Hrun;
    destruct (download_rec_inv _ _ _ _ _ _ _ _ Hrun) as (results & w1 & Hpass & Hcase);
    destruct (pass_results _ _ _ _ _ Hpass) as (_ & _ & Hsrc & _);
    (destruct Hcase as [(-> & -> & _)
                       |(fuel' & rf & rsucc & w2 & Hfuel & Hrec & -> & -> & _)];
     [rewrite <- map_app, <- Hsrc; apply Permutation_map;
      rewrite Permutation_app_comm; apply filter_app_complement|]).
  - discriminate.
  - injection Hfuel as <-.
    set (fails1 := filter (fun r => ~ saved r) results) in *.
    set (retried := list_to_set (map url rsucc) : gset string).
    assert (Hsub : map source_of (filter retryable fails1) `sublist_of` sources).
    { rewrite <- Hsrc. apply sublist_map.
      etransitivity; [apply sublist_filter|apply sublist_filter]. }
    assert (Hnd1 : NoDup (map fst (map source_of (filter retryable fails1)))).
    { eapply sublist_NoDup; [exact Hnd|]. now apply sublist_map. }
    pose proof (IH _ _ _ _ _ _ Hnd1 Hrec) as Hperm.
    assert (Hkey : map source_of rsucc ≡ₚ
                   map source_of (filter (fun f => url f ∈ retried) fails1)).
    { apply NoDup_Permutation.
      - assert (Hboth : NoDup (map source_of rf ++ map source_of rsucc))
          by (rewrite Hperm; now apply NoDup_fst).
        now apply NoDup_app in Hboth as (_ & _ & Hboth).
      - apply NoDup_fst. eapply sublist_NoDup; [exact Hnd|].
        rewrite <- Hsrc. apply sublist_map, sublist_map.
        etransitivity; [apply sublist_filter|apply sublist_filter].
      - intros x. split; intros Hx.
        + assert (Hx' : x ∈ map source_of (filter retryable fails1)).
          { rewrite <- Hperm. apply elem_of_app. now right. }
          apply list_elem_of_fmap in Hx' as (f & -> & Hf).
          apply list_elem_of_fmap. exists f. split; [reflexivity|].
          apply list_elem_of_filter in Hf as [_ Hf]. apply list_elem_of_filter.
          split; [|exact Hf]. apply elem_of_list_to_set.
          apply list_elem_of_fmap in Hx as (s & Hs & Hin).
          apply list_elem_of_fmap. exists s. split; [|exact Hin].
          now injection Hs.
        + apply list_elem_of_fmap in Hx as (f & -> & Hf).
          apply list_elem_of_filter in Hf as [Hu Hf].
          apply elem_of_list_to_set, list_elem_of_fmap in Hu as (s & Hs & Hin).
          assert (Hs1 : source_of s ∈ sources).
          { eapply elem_of_sublist; [|exact Hsub]. rewrite <- Hperm.
            apply elem_of_app. right. now apply source_of_elem_of. }
          assert (Hf1 : source_of f ∈ sources).
          { rewrite <- Hsrc. apply source_of_elem_of.
            apply list_elem_of_filter in Hf. apply Hf. }
          rewrite (NoDup_map_eq fst sources (source_of f) (source_of s) Hnd Hf1 Hs1 Hs).
          now apply source_of_elem_of. }
    rewrite map_app, Hkey, (Permutation_app_comm (map source_of (filter saved results))).
    rewrite app_assoc, <- map_app, <- Hsrc, <- map_app. apply Permutation_map.
    rewrite (Permutation_app_comm (filter _ fails1)), filter_app_complement.
    subst fails1. rewrite Permutation_app_comm. apply filter_app_complement.
Qed.

(** X12: when the urls of the sources are pairwise distinct and
    [download] returns, the failures and the successes together are the
    sources, each once: every source is reported as one or the other and
    not as both, and the two lists have as many entries as there are
    sources. *)
Theorem download_distinct_urls_partition :
  forall (sources : list DownloadTask) (dest_dir : string) (attempt : Z) (w w' : World)
         (fails successes : list DL),
    NoDup (map fst sources) ->
    download sources dest_dir attempt w = (Return (fails, successes), w') ->
    map source_of fails ++ map source_of successes ≡ₚ sources /\
    (forall f s, f ∈ fails -> s ∈ successes -> url f <> url s) /\
    (length fails + length successes = length sources)%nat.
Proof.
  intros sources dest_dir attempt w w' fails successes Hnd Hrun.
  pose proof (download_rec_distinct _ _ _ _ _ _ _ _ Hnd Hrun) as Hperm.
  split; [exact Hperm|]. split.
  - intros f s Hf Hs Hurl.
    assert (Hnd' : NoDup (map fst (map source_of fails ++ map source_of successes)))
      by now rewrite Hperm.
    rewrite map_app, !source_of_url in Hnd'. apply NoDup_app in Hnd' as (_ & Hdisj & _).
    apply (Hdisj (url f)); [|rewrite Hurl]; apply list_elem_of_fmap; eauto.
  - rewrite <- (length_map source_of fails), <- (length_map source_of successes).
    rewrite <- length_app. now rewrite Hperm.
Qed.

Lemma download_distinct_urls_partition_witness :
  [source_of (mkDL (fst eq050116) (snd eq050116) None 503)] ++
  [source_of (mkDL (fst eq060116) (snd eq060116) (Some "out/eq060116_csv.zip") 200);
   source_of (mkDL (fst eq040116) (snd eq040116) (Some "out/eq040116_csv.zip") 200)]
  ≡ₚ [eq040116; eq050116; eq060116].
Proof.
  destruct example_retry as (w' & Hrun).
  apply (download_distinct_urls_partition _ _ _ _ _ _ _) in Hrun as [Hperm _].
  - exact Hperm.
  - repeat (apply NoDup_cons; split;
            [intros Hin; repeat (apply elem_of_cons in Hin as [Hin|Hin]; [discriminate|]);
             inversion Hin|]).
    apply NoDup_nil_2.
Defined.

(** *** How much [download] asks *)





(** *** Surroundings in which nothing raises *)





(** *** The files [download] leaves *)

Lemma targets_subseteq (e : Env) (dest_dir : string) (sources1 sources2 : list DownloadTask)
    (f : string) :
  (forall source, source ∈ sources1 -> source ∈ sources2) ->
  f ∈ targets e dest_dir sources1 -> f ∈ targets e dest_dir sources2.
Proof.
  intros Hsub Hf. apply list_elem_of_fmap in Hf as (source & -> & Hin).
  apply list_elem_of_fmap. exists source. split; [reflexivity|auto].
Qed.

Lemma _download_frame (sources : list DownloadTask) (dest_dir : string) (w : World)
    (f : string) :
  f ∉ targets (env w) dest_dir sources ->
  files (snd (_download sources dest_dir requests_get w)) !! f = files w !! f /\
  env (snd (_download sources dest_dir requests_get w)) = env w.
Proof.
  intros Hnot.
  destruct (_download_run sources dest_dir w)
    as (out & w' & tr & k & Hrun & (Henv & _ & _ & Hfiles) & Hproto & _).
  rewrite Hrun. cbn [snd]. split; [|exact Henv]. rewrite Hfiles, Hproto.
  apply replay_frame. intros a Ha Ht. apply Hnot. eapply pass_sem_touches; eassumption.
Qed.

Lemma download_rec_frame (dest_dir : string) (f : string) (fuel : nat) :
  forall (sources : list DownloadTask) (attempt : Z) (w : World),
    f ∉ targets (env w) dest_dir sources ->
    files (snd (download_rec fuel sources dest_dir attempt w)) !! f = files w !! f.
Proof.
  induction fuel as [|fuel IH]; intros sources attempt w Hnot;
    destruct (_download_frame sources dest_dir w f Hnot) as [Hframe Henv];
    destruct (_download sources dest_dir requests_get w) as [[results|exn|] w1] eqn:Hpass;
    cbn [snd] in Hframe, Henv.
  - rewrite (download_rec_step _ _ _ _ _ _ _ Hpass). cbv zeta.
    destruct (non_empty _ && bool_decide (attempt <= 3))%bool; [|destruct (non_empty _)];
      exact Hframe.
  - now rewrite (download_rec_raise _ _ _ _ _ _ _ Hpass).
  - cbn [download_rec]. now rewrite run_bind, Hpass.
  - rewrite (download_rec_step _ _ _ _ _ _ _ Hpass). cbv zeta.
    destruct (pass_results _ _ _ _ _ Hpass) as (_ & _ & Hsrc & _).
    destruct (non_empty _ && bool_decide (attempt <= 3))%bool; [|destruct (non_empty _)];
      [|exact Hframe|exact Hframe].
    specialize (IH (map source_of (filter retryable (filter (fun r => ~ saved r) results)))
                  (attempt + 1) w1).
    rewrite Henv, Hframe in IH.
    assert (Hnot' : f ∉ targets (env w) dest_dir
                      (map source_of (filter retryable (filter (fun r => ~ saved r) results)))).
    { intros Hin. apply Hnot. eapply targets_subseteq; [|exact Hin].
      intros source Hs. rewrite <- Hsrc. now apply retry_batch_subseteq. }
    specialize (IH Hnot').
    destruct (download_rec fuel _ dest_dir (attempt + 1) w1) as [[[rf rsucc]|exn|] w2];
      exact IH.
  - now rewrite (download_rec_raise _ _ _ _ _ _ _ Hpass).
  - cbn [download_rec]. now rewrite run_bind, Hpass.
Qed.

(** X15: however it ends, a call of [download] leaves every file alone
    that is not the path of one of its sources under the destination
    directory: it is neither created nor changed, in the first pass or
    in a retry. *)
Theorem download_touches_only_targets :
  forall (sources : list DownloadTask) (dest_dir : string) (attempt : Z) (w : World)
         (path : string),
    path ∉ targets (env w) dest_dir sources ->
    files (snd (download sources dest_dir attempt w)) !! path = files w !! path.
Proof.
  intros sources dest_dir attempt w path Hnot. now apply download_rec_frame.
Qed.

Lemma download_touches_only_targets_witness :
  files (snd (download [eq040116; eq050116] "out" 1
                (fresh_world (always (response 200 ["PK"]))))) !! "out/eq060116_csv.zip"
  = None.
Proof.
  rewrite download_touches_only_targets; [reflexivity|].
  intros Hin. repeat (apply elem_of_cons in Hin as [Hin|Hin]; [discriminate|]).
  inversion Hin.
Defined.

Lemma targets_lookup (e : Env) (dest_dir : string) (sources : list DownloadTask)
    (k : nat) (source : DownloadTask) :
  sources !! k = Some source ->
  targets e dest_dir sources !! k = Some (abspath e (path_join dest_dir (snd source))).
Proof.
  revert k. induction sources as [|s0 sources IH]; intros [|k] Hk; try discriminate.
  - now injection Hk as ->.
  - now apply IH.
Qed.

Lemma map_lookup {A B} (g : A -> B) (l : list A) (k : nat) (x : A) :
  l !! k = Some x -> map g l !! k = Some (g x).
Proof.
  revert k. induction l as [|a l IH]; intros [|k] Hk; try discriminate.
  - now injection Hk as ->.
  - now apply IH.
Qed.

(** The files of the saved results of a pass, when it has returned. *)
Lemma _download_saved_files (sources : list DownloadTask) (dest_dir : string)
    (w w1 : World) (results : list DL) :
  NoDup (targets (env w) dest_dir sources) ->
  _download sources dest_dir requests_get w = (Return results, w1) ->
  forall (k : nat) (r : DL) (f : string),
    results !! k = Some r -> lfile r = Some f ->
    exists resp,
      sources !! k = Some (source_of r) /\
      f = abspath (env w) (path_join dest_dir (rfile r)) /\
      net (env w) (requests w + k) (url r) = inr resp /\
      ok resp = true /\ status r = status_code resp /\
      files w1 !! f = Some (joined (iter_content resp (256 * 1024))).
Proof.
  intros Hnd Hpass k r f Hk Hf.
  destruct (_download_returns _ _ _ _ _ Hpass) as (Hfst & Hproto & (_ & _ & _ & Hfiles)).
  destruct (pass_sem (env w) dest_dir (requests w) sources) as [res p] eqn:Hsem.
  simpl in Hfst, Hproto. subst res.
  destruct (pass_sem_saved_content _ _ _ _ _ _ (files w) Hsem Hnd k r f Hk Hf)
    as (item & dated_file & resp & Hsrc & Hnet & Hcontent).
  destruct (pass_sem_lookup _ _ _ _ _ _ Hsem) as (_ & Hlook).
  destruct (Hlook k r Hk) as (item' & dated_file' & resp' & Hsrc' & Hnet' & Hr).
  rewrite Hsrc in Hsrc'. injection Hsrc' as <- <-. rewrite Hnet in Hnet'.
  injection Hnet' as <-. subst r. simpl in *. exists resp.
  destruct (ok resp); [|discriminate]. injection Hf as <-.
  rewrite Hfiles, Hproto. auto 10.
Qed.

Lemma download_rec_saved_files (dest_dir : string) (fuel : nat) :
  forall (sources : list DownloadTask) (attempt : Z) (w w' : World)
         (fails successes : list DL),
    NoDup (targets (env w) dest_dir sources) ->
    download_rec fuel sources dest_dir attempt w = (Return (fails, successes), w') ->
    forall (r : DL) (f : string),
      r ∈ successes -> lfile r = Some f ->
      exists n resp,
        net (env w) n (url r) = inr resp /\ ok resp = true /\
        status r = status_code resp /\
        files w' !! f = Some (joined (iter_content resp (256 * 1024))).
Proof.
  induction fuel as [|fuel IH]; intros sources attempt w w' fails successes Hnd Hrun r f Hr Hf;
    destruct (download_rec_inv _ _ _ _ _ _ _ _ Hrun) as (results & w1 & Hpass & Hcase);
    pose proof (_download_saved_files _ _ _ _ _ Hnd Hpass) as Hsaved;
    assert (Hfirst : r ∈ filter saved results ->
              exists k resp,
                results !! k = Some r /\
                sources !! k = Some (source_of r) /\
                f = abspath (env w) (path_join dest_dir (rfile r)) /\
                net (env w) (requests w + k) (url r) = inr resp /\
                ok resp = true /\ status r = status_code resp /\
                files w1 !! f = Some (joined (iter_content resp (256 * 1024))))
      by (intros Hin; apply list_elem_of_filter in Hin as [_ Hin];
          apply list_elem_of_lookup in Hin as [k Hk];
          destruct (Hsaved k r f Hk Hf) as (resp & H); exists k, resp; tauto);
    (destruct Hcase as [(-> & -> & Hfiles & _)
                       |(fuel' & rf & rsucc & w2 & Hfuel & Hrec & -> & -> & Hfiles & _)];
     [destruct (Hfirst Hr) as (k & resp & _ & _ & _ & Hnet & Hok & Hst & Hcontent);
      exists (requests w + k)%nat, resp; rewrite Hfiles; auto|]).
  - discriminate.
  - injection Hfuel as <-. rewrite Hfiles.
    destruct (pass_results _ _ _ _ _ Hpass) as (Henv1 & _ & Hsrc & _).
    set (batch := filter retryable (filter (fun r => ~ saved r) results)) in *.
    apply elem_of_app in Hr as [Hr|Hr].
    + destruct (Hfirst Hr) as (k & resp & Hk & Hsk & -> & Hnet & Hok & Hst & Hcontent).
      exists (requests w + k)%nat, resp.
      split; [exact Hnet|]. split; [exact Hok|]. split; [exact Hst|].
      rewrite <- Hcontent.
      pose proof (download_rec_frame dest_dir
                    (abspath (env w) (path_join dest_dir (rfile r))) fuel
                    (map source_of batch) (attempt + 1) w1) as Hframe.
      rewrite Hrec in Hframe. apply Hframe. rewrite Henv1. intros Hin.
      apply list_elem_of_fmap in Hin as (source & Hpath & Hin).
      apply list_elem_of_fmap in Hin as (r' & -> & Hin).
      apply list_elem_of_filter in Hin as [_ Hin].
      apply list_elem_of_filter in Hin as [Hns Hin].
      apply list_elem_of_lookup in Hin as [j Hj].
      assert (Hsj : sources !! j = Some (source_of r'))
        by (rewrite <- Hsrc; apply (map_lookup source_of); exact Hj).
      pose proof (targets_lookup (env w) dest_dir _ _ _ Hsk) as Htk.
      pose proof (targets_lookup (env w) dest_dir _ _ _ Hsj) as Htj.
      simpl in Htk, Htj, Hpath. rewrite <- Hpath in Htj.
      pose proof (NoDup_lookup _ _ _ _ Hnd Htk Htj) as <-.
      rewrite Hk in Hj. injection Hj as <-.
      apply Hns. unfold saved. now rewrite Hf.
    + assert (Hnd1 : NoDup (targets (env w1) dest_dir (map source_of batch))).
      { rewrite Henv1. eapply sublist_NoDup; [exact Hnd|].
        unfold targets. apply fmap_sublist. rewrite <- Hsrc. apply fmap_sublist.
        etransitivity; [apply sublist_filter|apply sublist_filter]. }
      destruct (IH _ _ _ _ _ _ Hnd1 Hrec r f Hr Hf) as (n & resp & H).
      rewrite Henv1 in H. eauto.
Qed.

(** X16: when the sources are saved under pairwise distinct paths and
    [download] returns, the file of every success holds, at the end of
    the call, the whole body of a successful response to the url of that
    success, and the success carries the status of that response: no
    later pass writes to the file of an earlier success. *)
Theorem download_saves_bodies :
  forall (sources : list DownloadTask) (dest_dir : string) (attempt : Z) (w w' : World)
         (fails successes : list DL) (r : DL) (f : string),
    NoDup (targets (env w) dest_dir sources) ->
    download sources dest_dir attempt w = (Return (fails, successes), w') ->
    r ∈ successes -> lfile r = Some f ->
    exists n resp,
      net (env w) n (url r) = inr resp /\ ok resp = true /\
      status r = status_code resp /\
      files w' !! f = Some (joined (iter_content resp (256 * 1024))).
Proof.
  intros sources dest_dir attempt w w' fails successes r f Hnd Hrun Hr Hf.
  exact (download_rec_saved_files _ _ _ _ _ _ _ _ Hnd Hrun r f Hr Hf).
Qed.

Lemma download_saves_bodies_witness :
  exists w',
    download [eq040116; eq050116; eq060116] "out" 1
      (fresh_world (scripted [response 500 []; response 503 []; response 200 ["PK"; "6"];
                              response 200 ["PK"; "4"]; response 404 []]))
    = (Return ([mkDL (fst eq050116) (snd eq050116) None 503],
               [mkDL (fst eq060116) (snd eq060116) (Some "out/eq060116_csv.zip") 200;
                mkDL (fst eq040116) (snd eq040116) (Some "out/eq040116_csv.zip") 200]), w') /\
    exists n resp,
      scripted [response 500 []; response 503 []; response 200 ["PK"; "6"];
                response 200 ["PK"; "4"]; response 404 []] n (fst eq040116) = inr resp /\
      ok resp = true /\ 200 = status_code resp /\
      files w' !! "out/eq040116_csv.zip" = Some (joined (iter_content resp (256 * 1024))).
Proof.
  destruct example_retry as (w' & Hrun). exists w'. split; [exact Hrun|].
  apply (download_saves_bodies _ _ _ _ _ _ _
           (mkDL (fst eq040116) (snd eq040116) (Some "out/eq040116_csv.zip") 200)
           "out/eq040116_csv.zip") in Hrun.
  - exact Hrun.
  - repeat (apply NoDup_cons; split;
            [intros Hin; repeat (apply elem_of_cons in Hin as [Hin|Hin]; [discriminate|]);
             inversion Hin|]).
    apply NoDup_nil_2.
  - right. left.
  - reflexivity.
Defined.

End DownloadMore.

(** ** More on sources *)

Module SourceMore.
Import Source SourceProps DownloadProps.











End SourceMore.

(** ** EquitySource *)

Module EquityProps.
Import EquitySource.

Lemma pretty_N_char_code (a : N) :
  (a < 10)%N -> N_of_ascii (pretty_N_char a) = (48 + a)%N.
Proof.
  intros Ha.
  assert (Hcases : (a = 0 \/ a = 1 \/ a = 2 \/ a = 3 \/ a = 4 \/ a = 5 \/ a = 6 \/
                    a = 7 \/ a = 8 \/ a = 9)%N) by lia.
  repeat (destruct Hcases as [->|Hcases]); try subst a; reflexivity.
Qed.

Lemma pretty_N_char_inj (a b : N) :
  (a < 10)%N -> (b < 10)%N -> pretty_N_char a = pretty_N_char b -> a = b.
Proof.
  intros Ha Hb Heq. apply (f_equal N_of_ascii) in Heq.
  rewrite !pretty_N_char_code in Heq by assumption. lia.
Qed.

Lemma two_digits_inj (m n : Z) :
  0 <= m < 100 -> 0 <= n < 100 -> two_digits m = two_digits n -> m = n.
Proof.
  intros Hm Hn Heq. unfold two_digits in Heq. injection Heq as Hhi Hlo.
  assert (Hmq : 0 <= m / 10 < 10)
    by (split; [apply Z.div_pos; lia|apply Z.div_lt_upper_bound; lia]).
  assert (Hnq : 0 <= n / 10 < 10)
    by (split; [apply Z.div_pos; lia|apply Z.div_lt_upper_bound; lia]).
  assert (Hmr : 0 <= m mod 10 < 10) by (apply Z.mod_pos_bound; lia).
  assert (Hnr : 0 <= n mod 10 < 10) by (apply Z.mod_pos_bound; lia).
  apply pretty_N_char_inj in Hhi; [|lia..].
  apply pretty_N_char_inj in Hlo; [|lia..].
  rewrite (Z.div_mod m 10), (Z.div_mod n 10) by lia.
  replace (m / 10) with (n / 10) by lia. replace (m mod 10) with (n mod 10) by lia.
  reflexivity.
Qed.

Lemma url_for_date_Some (self : t) (d : date) :
  1900 <= year d ->
  url_for_date self d
  = Some ((url_root self ++ "eq" ++ two_digits (day d) ++ two_digits (month d) ++
           two_digits (year d mod 100) ++ "_csv.zip")%string,
          ("eq" ++ two_digits (day d) ++ two_digits (month d) ++
           two_digits (year d mod 100) ++ "_csv.zip")%string).
Proof.
  intros Hy. unfold url_for_date, strftime_dmy. rewrite decide_False by lia.
  reflexivity.
Qed.

(** X20: [url_for_date] names the file of a day by day, month and the
    last two digits of the year. It raises for a year before 1900; from
    1900 on, two dates with the same day and month whose years differ by
    a multiple of 100 get the same url and the same file name. *)
Theorem url_for_date_century :
  forall (self : t) (d1 d2 : date),
    (url_for_date self d1 = None <-> year d1 < 1900) /\
    (1900 <= year d1 -> 1900 <= year d2 ->
     day d1 = day d2 -> month d1 = month d2 -> year d1 mod 100 = year d2 mod 100 ->
     url_for_date self d1 = url_for_date self d2).
Proof.
  intros self d1 d2. split.
  - unfold url_for_date, strftime_dmy. destruct (decide (year d1 < 1900)); split;
      intros H; try reflexivity; try assumption; try discriminate; lia.
  - intros H1 H2 Hd Hm Hy. rewrite !url_for_date_Some by assumption.
    now rewrite Hd, Hm, Hy.
Qed.

Lemma url_for_date_century_witness :
  url_for_date init (mkdate 1916 1 4) = url_for_date init (mkdate 2016 1 4) /\
  url_for_date init (mkdate 2016 1 4) = Some eq040116.
Proof.
  destruct (url_for_date_century init (mkdate 1916 1 4) (mkdate 2016 1 4)) as [_ H].
  split; [|reflexivity]. apply H; simpl; try lia; reflexivity.
Defined.

(** X21: within a century the naming is one to one: two dates less
    than a hundred years apart for which [url_for_date] returns the same
    file name are the same date. *)
Theorem url_for_date_injective :
  forall (self : t) (d1 d2 : date) (task1 task2 : DownloadTask),
    valid d1 -> valid d2 ->
    Z.abs (year d1 - year d2) < 100 ->
    url_for_date self d1 = Some task1 ->
    url_for_date self d2 = Some task2 ->
    snd task1 = snd task2 ->
    d1 = d2.
Proof.
  intros self [y1 m1 a1] [y2 m2 a2] task1 task2 (Hy1 & Hm1 & Ha1) (Hy2 & Hm2 & Ha2)
         Hc H1 H2 Hfile.
  simpl in *. unfold url_for_date, strftime_dmy in H1, H2. simpl in H1, H2.
  destruct (decide (y1 < 1900)); [discriminate|].
  destruct (decide (y2 < 1900)); [discriminate|].
  injection H1 as <-. injection H2 as <-. cbn [snd] in Hfile.
  unfold file_type_prefix, file_type_suffix in Hfile.
  cbv [String.append two_digits] in Hfile.
  injection Hfile as Hd1 Hd0 Hm1' Hm0 Hy1' Hy0.
  assert (Hday : a1 = a2).
  { apply two_digits_inj; [lia|lia|]. unfold two_digits. congruence. }
  assert (Hmonth : m1 = m2).
  { apply two_digits_inj; [lia|lia|]. unfold two_digits. congruence. }
  assert (Hyear : y1 mod 100 = y2 mod 100).
  { apply two_digits_inj; [apply Z.mod_pos_bound; lia|apply Z.mod_pos_bound; lia|].
    unfold two_digits. congruence. }
  pose proof (Z.div_mod y1 100) as Hq1. pose proof (Z.div_mod y2 100) as Hq2.
  assert (Hy : y1 = y2) by lia. congruence.
Qed.

Lemma url_for_date_injective_witness :
  mkdate 2016 1 4 = mkdate 2016 1 4.
Proof.
  apply (url_for_date_injective init (mkdate 2016 1 4) (mkdate 2016 1 4) eq040116 eq040116);
    try reflexivity; unfold valid; simpl; lia.
Defined.

End EquityProps.
